(** * random-wikiquote: the extraction, validation and retry pipeline

    A shallow embedding of [src/random-wikiquote.js] (the published module,
    called the primary implementation below) and of the earlier variant
    [src/unnamed/part_001], with the properties of the quotation pipeline
    proved over them.

    Conventions of the embedding.
    - A JavaScript string is the list of its UTF-16 code units.
    - The lengths and the thresholds [minLength] and [maxLength] are integers;
      [numericLimit] is a rational, and the quotient of two lengths is the
      exact rational (or NaN / Infinity when the divisor is zero).
    - The remote site and [Math.random] are the environment: a function from
      the number of earlier requests and the request to a response, and a
      function from the number of earlier draws to a number.
    - Promise chains are computations in a state and error monad: a rejected
      promise and a thrown exception are both [Reject], and waiting for a
      promise that never settles is [Hangs]. *)

From Stdlib Require Import List String Ascii Bool Arith ZArith NArith QArith Qround Lia.
From Stdlib Require Import DecimalString.
Import ListNotations.

Local Open Scope Z_scope.

(** ** Strings *)

Definition char := N.
Definition jsstring := list char.

(** A string literal of the source, as code units. *)
Definition lit (s : string) : jsstring := map N_of_ascii (list_ascii_of_string s).

Definition jsstring_eqb (a b : jsstring) : bool :=
  if list_eq_dec N.eq_dec a b then true else false.

(** The character class [\d] of a JavaScript regular expression. *)
Definition isDigit (c : char) : bool := ((48 <=? c) && (c <=? 57))%N.

(** The character class [\s], which is also what [String.prototype.trim]
    strips: tab, line feed, vertical tab, form feed, carriage return, space,
    no-break space, U+1680, U+2000 to U+200A, U+2028, U+2029, U+202F, U+205F,
    U+3000 and U+FEFF. *)
Definition isSpace (c : char) : bool :=
  (((9 <=? c) && (c <=? 13)) || (c =? 32) || (c =? 160) || (c =? 5760)
   || ((8192 <=? c) && (c <=? 8202)) || (c =? 8232) || (c =? 8233)
   || (c =? 8239) || (c =? 8287) || (c =? 12288) || (c =? 65279))%N.

Definition SPACE : char := 32%N.

(** [(quote.match(/\d/g) || []).length]: the number of digits of the string. *)
Definition countDigits (s : jsstring) : nat := List.length (filter isDigit s).

Definition startsWithSpace (s : jsstring) : bool :=
  match s with
  | c :: _ => isSpace c
  | [] => false
  end.

(** [s.replace(/\s\s+/gmi, ' ')]: every leftmost longest match of two or more
    white space characters becomes one space; a white space character with no
    white space neighbour is not matched and stays.  [prev] tells whether the
    character before the current one is white space, that is, whether the
    current position is inside a match that has been replaced already. *)
Fixpoint replaceSpaces (prev : bool) (s : jsstring) : jsstring :=
  match s with
  | [] => []
  | c :: t =>
      if isSpace c then
        if prev then replaceSpaces true t
        else if startsWithSpace t then SPACE :: replaceSpaces true t
        else c :: replaceSpaces true t
      else c :: replaceSpaces false t
  end.

Fixpoint trimStart (s : jsstring) : jsstring :=
  match s with
  | c :: t => if isSpace c then trimStart t else s
  | [] => []
  end.

Definition trimEnd (s : jsstring) : jsstring := rev (trimStart (rev s)).

(** [s.trim()] *)
Definition trim (s : jsstring) : jsstring := trimEnd (trimStart s).

(** [s.split(sep)] for a one-character separator. *)
Fixpoint split (sep : char) (s : jsstring) : list jsstring :=
  match s with
  | [] => [[]]
  | c :: t =>
      if (c =? sep)%N then [] :: split sep t
      else match split sep t with
           | w :: ws => (c :: w) :: ws
           | [] => [[c]]
           end
  end.

(** ** Values and numbers *)

(** The values a quote variable can hold: a string, or nothing. *)
Inductive jsval :=
| JUndefined
| JNull
| JStr (s : jsstring).

(** [!v] is [negb (truthy v)]. *)
Definition truthy (v : jsval) : bool :=
  match v with
  | JStr (_ :: _) => true
  | _ => false
  end.

(** The result of dividing one length by another. *)
Inductive num :=
| NaN
| Infinity
| Fin (q : Q).

Definition divide (n d : nat) : num :=
  match d with
  | O => match n with O => NaN | S _ => Infinity end
  | S _ => Fin (Z.of_nat n # Pos.of_nat d)
  end.

(** [x > y] and [x <= y] for a quotient [x] and a finite [y]: every
    comparison with NaN is false. *)
Definition num_gtb (x : num) (y : Q) : bool :=
  match x with
  | NaN => false
  | Infinity => true
  | Fin q => negb (Qle_bool q y)
  end.

Definition num_le (x : num) (y : Q) : Prop :=
  match x with
  | Fin q => (q <= y)%Q
  | _ => False
  end.

(** The digit ratio of a string: the fraction of its code units that are
    decimal digits. *)
Definition digitRatio (s : jsstring) : num := divide (countDigits s) (List.length s).

(** ** The markup tree *)

#[warnings="-register-all"]
Inductive node :=
| Text (data : jsstring)
| Elem (tagName : string) (children : list node).

(** [node.textContent].  The documents here come from [DOMParser] and are
    never rendered, and for an element that is not being rendered both
    [innerText] and [outerText] return [textContent]. *)
Fixpoint textContent (n : node) : jsstring :=
  match n with
  | Text s => s
  | Elem _ cs => flat_map textContent cs
  end.

Definition innerText := textContent.
Definition outerText := textContent.

Definition tag_is (t : string) (o : option string) : bool :=
  match o with
  | Some u => String.eqb u t
  | None => false
  end.

(** [querySelectorAll('div > ul > li')] below a node whose parent has tag
    [parent] and whose grandparent has tag [grand]: the [li] elements that
    are children of a [ul] that is a child of a [div], in document order. *)
Fixpoint selectFrom (grand parent : option string) (n : node) : list node :=
  match n with
  | Text _ => []
  | Elem t cs =>
      (if String.eqb t "LI" && tag_is "UL" parent && tag_is "DIV" grand
       then [n] else [])
      ++ flat_map (selectFrom parent (Some t)) cs
  end.

Definition querySelectorAll (document : node) : list node :=
  selectFrom None None document.

(** One step of the inner loop: a child element whose tag is not in [keep]
    is replaced by the text node [" "]. *)
Definition replaceChild (keep : list string) (child : node) : node :=
  match child with
  | Elem t _ => if existsb (String.eqb t) keep then child else Text [SPACE]
  | Text _ => child
  end.

(** The element after [for (let child of children) if (!keep.includes(child.tagName))
    quote.replaceChild(document.createTextNode(" "), child)].  The loop
    replaces children of [quote] and changes nothing inside a child.  The
    static list of [querySelectorAll] is in document order: when an element
    of the list is reached, an earlier element that contains it has been read
    already and has at most detached it, subtree and all.  So every element
    of the list is processed as it is in the parsed document. *)
Definition replaceUnwanted (keep : list string) (quote : node) : node :=
  match quote with
  | Elem t cs => Elem t (map (replaceChild keep) cs)
  | Text _ => quote
  end.

(** ** The remote site *)

(** The three URLs the module requests: [list=random], [prop=sections] for a
    page, and the rendering of one section of a page.  The section is the
    value that was spliced into the URL. *)
Inductive request :=
| QueryRandom
| ParseSections (pageId : Z)
| ParseSection (pageId : Z) (sectionIndex : jsval).

Record section := mkSection { index : jsstring; number : jsstring }.

(** [data.parse] of a [prop=sections] answer. *)
Record outline := mkOutline { outline_title : jsstring; sections : list section }.

(** [data.parse] of a section rendering; [text] is the document that
    [DOMParser.parseFromString] builds from [data.parse.text["*"]]. *)
Record rendering := mkRendering { rendering_title : jsstring; text : node }.

(** The parsed JSON bodies, by the shapes the remote API answers with. *)
Inductive data :=
| RandomList (id : option Z)   (* { query: { random: [ { id } ] } } *)
| Outline (parse : outline)    (* { parse: { title, sections } } *)
| Rendering (parse : rendering) (* { parse: { title, text } } *)
| NoParse.                     (* a body with neither [query] nor [parse] *)

(** What a promise is rejected with. *)
Inductive reason :=
| Message (s : string)
| TypeError
| SyntaxError.

(** What becomes of the promise of [ajaxGet]: it is resolved with the parsed
    body, or rejected, or left pending for ever.  The handler rejects on a
    status other than 200 and on a body that does not parse, and returns
    without settling the promise when the request ends with status 0, which
    is how a transport failure ends; there is no error handler and no time
    limit. *)
Inductive response :=
| Responds (d : data)
| Fails (r : reason)
| Unanswered.

(** The environment: what the site answers to a request, given how many
    requests came before it, and what [Math.random()] returns, given how many
    draws came before. *)
Record environment := mkEnvironment {
  respond : nat -> request -> response;
  Math_random : nat -> Q
}.

(** ** State and computations *)

(** The module-level variables, and a record of what the program has done:
    the requests sent, the number of random draws, the lines written to the
    console, and the operands of every division evaluated. *)
Record state := mkState {
  minLength : Z;
  maxLength : Z;
  numericLimit : Q;
  requests : list request;
  draws : nat;
  console : list reason;
  divisions : list (nat * nat)
}.

(** [let minLength = 20; let maxLength = 300; let numericLimit = 0.1;] *)
Definition initial : state := mkState 20 300 (1 # 10) [] 0 [] [].

(** A computation returns, or rejects, or waits for a promise that never
    settles ([Hangs]); [OutOfFuel] is what the bounded recursion of the model
    gives when its bound is too small. *)
Inductive outcome (A : Type) :=
| Return (a : A)
| Reject (r : reason)
| OutOfFuel
| Hangs.

Arguments Return {A} a.
Arguments Reject {A} r.
Arguments OutOfFuel {A}.
Arguments Hangs {A}.

Definition M (A : Type) : Type := state -> outcome A * state.

Definition ret {A} (a : A) : M A := fun st => (Return a, st).

Definition reject {A} (r : reason) : M A := fun st => (Reject r, st).

Definition bind {A B} (m : M A) (k : A -> M B) : M B :=
  fun st =>
    match m st with
    | (Return a, st') => k a st'
    | (Reject r, st') => (Reject r, st')
    | (OutOfFuel, st') => (OutOfFuel, st')
    | (Hangs, st') => (Hangs, st')
    end.

(** [promise.catch(handler)] *)
Definition catch {A} (m : M A) (handler : reason -> M A) : M A :=
  fun st =>
    match m st with
    | (Reject r, st') => handler r st'
    | other => other
    end.

Notation "x <- m ;; k" := (bind m (fun x => k))
  (at level 61, m at next level, right associativity).
Notation "m ;;; k" := (bind m (fun _ => k))
  (at level 61, right associativity).

Definition get {A} (field : state -> A) : M A := fun st => (Return (field st), st).

(** The setters of the module. *)
Definition setMinLength (min : Z) : M unit :=
  fun st => (Return tt,
             mkState min (maxLength st) (numericLimit st)
                     (requests st) (draws st) (console st) (divisions st)).

Definition setMaxLength (max : Z) : M unit :=
  fun st => (Return tt,
             mkState (minLength st) max (numericLimit st)
                     (requests st) (draws st) (console st) (divisions st)).

Definition setNumericLimit (percentage : Q) : M unit :=
  fun st => (Return tt,
             mkState (minLength st) (maxLength st) percentage
                     (requests st) (draws st) (console st) (divisions st)).

(** [console.log(reason + ...)] *)
Definition console_log (r : reason) : M unit :=
  fun st => (Return tt,
             mkState (minLength st) (maxLength st) (numericLimit st)
                     (requests st) (draws st) (console st ++ [r]) (divisions st)).

(** [n / d], recorded. *)
Definition quotient (n d : nat) : M num :=
  fun st => (Return (divide n d),
             mkState (minLength st) (maxLength st) (numericLimit st)
                     (requests st) (draws st) (console st) (divisions st ++ [(n, d)])).

(** [v.length]: a TypeError when [v] is undefined or null. *)
Definition length_of (v : jsval) : M nat :=
  match v with
  | JStr s => ret (List.length s)
  | _ => reject TypeError
  end.

(** [(v.match(/\d/g) || []).length] *)
Definition digits_of (v : jsval) : M nat :=
  match v with
  | JStr s => ret (countDigits s)
  | _ => reject TypeError
  end.

(** [array[i]] *)
Definition at_index (array : list jsstring) (i : Z) : jsval :=
  if i <? 0 then JUndefined
  else match nth_error array (Z.to_nat i) with
       | Some s => JStr s
       | None => JUndefined
       end.

Section Environment.

Variable env : environment.

(** [ajaxGet(url)]: resolves with the parsed body, or rejects, or never
    settles. *)
Definition ajaxGet (url : request) : M data :=
  fun st =>
    let st' := mkState (minLength st) (maxLength st) (numericLimit st)
                       (requests st ++ [url]) (draws st) (console st)
                       (divisions st) in
    match respond env (List.length (requests st)) url with
    | Responds d => (Return d, st')
    | Fails r => (Reject r, st')
    | Unanswered => (Hangs, st')
    end.

(** [max => Math.floor(Math.random() * max)] *)
Definition randomNum (max : nat) : M Z :=
  fun st =>
    (Return (Qfloor (Math_random env (draws st) * inject_Z (Z.of_nat max))),
     mkState (minLength st) (maxLength st) (numericLimit st)
             (requests st) (S (draws st)) (console st) (divisions st)).

End Environment.

(** A [for ... of] loop whose body may change the state, threading the
    value the loop builds. *)
Fixpoint for_of {A B} (xs : list A) (body : A -> B -> M B) (acc : B) : M B :=
  match xs with
  | [] => ret acc
  | x :: rest => acc' <- body x acc ;; for_of rest body acc'
  end.

(** What [getSectionsForPage] and [getQuotesForSection] resolve with, and
    what [getRandomQuote] resolves with. *)
Record SectionsResult := mkSectionsResult {
  sr_pageId : Z;
  sr_titles : jsstring;
  sr_sections : list jsstring
}.

Record QuotesResult := mkQuotesResult {
  titles : jsstring;
  quotes : list jsstring
}.

Record QuoteResult := mkQuoteResult {
  title : jsstring;
  quote : jsval
}.

(** The body of the loop of [getSectionsForPage], the same in every variant:
    [splitNum.length > 1 && splitNum[0] === "1"]. *)
Definition isSubsectionOfFirst (s : section) : bool :=
  let splitNum := split 46%N (number s) in
  (1 <? List.length splitNum)%nat
  && match splitNum with
     | first :: _ => jsstring_eqb first (lit "1")
     | [] => false
     end.

(** [for (let s in sections) ... sectionArray.push(sections[s].index)] *)
Definition collectSections (secs : list section) : list jsstring :=
  fold_left (fun sectionArray s =>
               if isSubsectionOfFirst s then sectionArray ++ [index s]
               else sectionArray)
            secs [].

(** ** The primary implementation, [src/random-wikiquote.js] *)

Module RandomWikiquote.

Definition RETRY_LIMIT : nat := 7.

Definition ELEMENTS_TO_KEEP : list string :=
  ["A"; "B"; "I"; "STRONG"; "EM"; "MARK"; "ABBR"; "SMALL";
   "DEL"; "INS"; "SUB"; "SUP"; "PRE"; "CODE"; "DFN"; "SAMP"]%string.

Definition isQuoteValid (quote : jsval) : M bool :=
  if negb (truthy quote) then ret false
  else
    length <- length_of quote ;;
    digits <- digits_of quote ;;
    digitPercentage <- quotient digits length ;;
    minLength <- get minLength ;;
    maxLength <- get maxLength ;;
    numericLimit <- get numericLimit ;;
    if (Z.of_nat length <? minLength) || (maxLength <? Z.of_nat length)
       || num_gtb digitPercentage numericLimit
    then ret false
    else ret true.

(** The string the loop of [getQuotesForSection] builds from one list
    item. *)
Definition plainQuote (quote : node) : jsstring :=
  trim (replaceSpaces false (innerText (replaceUnwanted ELEMENTS_TO_KEEP quote))).

(** The body of the outer loop of [getQuotesForSection]. *)
Definition pushIfValid (quote : node) (parsedQuotes : list jsstring)
  : M (list jsstring) :=
  let plain := plainQuote quote in
  valid <- isQuoteValid (JStr plain) ;;
  if valid then ret (parsedQuotes ++ [plain]) else ret parsedQuotes.

Section Pipeline.

Variable env : environment.

Definition getQuotesForSection (pageId : Z) (sectionIndex : jsval)
  : M QuotesResult :=
  data <- ajaxGet env (ParseSection pageId sectionIndex) ;;
  match data with
  | Rendering parse =>
      let allQuotes := querySelectorAll (text parse) in
      parsedQuotes <- for_of allQuotes pushIfValid [] ;;
      if (List.length parsedQuotes =? 0)%nat
      then reject (Message "Section has no valid quote.")
      else ret (mkQuotesResult (rendering_title parse) parsedQuotes)
  | Outline _ => reject TypeError      (* data.parse.text is undefined *)
  | RandomList _ | NoParse => reject (Message "Section is not valid.")
  end.

Definition getSectionsForPage (pageId : Z) : M SectionsResult :=
  data <- ajaxGet env (ParseSections pageId) ;;
  match data with
  | Outline parse =>
      let sectionArray := collectSections (sections parse) in
      let sectionArray :=
        if (List.length sectionArray =? 0)%nat then sectionArray ++ [lit "1"]
        else sectionArray in
      ret (mkSectionsResult pageId (outline_title parse) sectionArray)
  | Rendering parse =>                 (* data.parse.sections is undefined *)
      ret (mkSectionsResult pageId (rendering_title parse) [lit "1"])
  | RandomList _ | NoParse => reject TypeError
  end.

Definition getRandomPage : M Z :=
  data <- ajaxGet env QueryRandom ;;
  match data with
  | RandomList (Some id) =>
      if id =? 0 then reject (Message "Invalid random page id.") else ret id
  | RandomList None => reject (Message "Invalid random page id.")
  | _ => reject TypeError              (* data.query is undefined *)
  end.

Definition randomSection (sections : list jsstring) : M jsval :=
  i <- randomNum env (List.length sections) ;; ret (at_index sections i).

Definition randomQuote (result : QuotesResult) : M jsval :=
  i <- randomNum env (List.length (quotes result)) ;;
  ret (at_index (quotes result) i).

Definition chooseQuote (result : QuotesResult) : M QuoteResult :=
  q <- randomQuote result ;; ret (mkQuoteResult (titles result) q).

(** One pass of the promise chain of [mainSequence], up to the [catch]. *)
Definition attempt : M QuoteResult :=
  pageId <- getRandomPage ;;
  data <- getSectionsForPage pageId ;;
  sectionIndex <- randomSection (sr_sections data) ;;
  quotes <- getQuotesForSection (sr_pageId data) sectionIndex ;;
  chooseQuote quotes.

(** [checkRetry] and [mainSequence] call each other; [numRetry] is the
    counter they share, and [fuel] bounds the depth of the recursion. *)
Fixpoint mainSequence (fuel : nat) (numRetry : nat) : M QuoteResult :=
  match fuel with
  | O => fun st => (OutOfFuel, st)
  | S fuel' =>
      catch attempt
        (fun reason =>
           console_log reason ;;;
           let numRetry := S numRetry in
           if (RETRY_LIMIT <=? numRetry)%nat
           then reject (Message "Retry limit reached")
           else mainSequence fuel' numRetry)
  end.

Definition getRandomQuote : M QuoteResult :=
  mainSequence RETRY_LIMIT 0.

End Pipeline.

End RandomWikiquote.

(** ** The earlier variant, [src/unnamed/part_001]

    It extracts without filtering and validates the one quote it has chosen
    afterwards, in [checkQuote]. *)

Module Part001.

Definition RETRY_LIMIT : nat := 7.

Definition childrenToKeep : list string :=
  ["A"; "B"; "I"; "STRONG"; "EM"; "MARK"; "ABBR"; "SMALL";
   "DEL"; "INS"; "SUB"; "SUP"; "PRE"; "CODE"; "DFN"; "SAMP"]%string.

Definition checkQuote (chosen : QuoteResult) : M QuoteResult :=
  if negb (truthy (quote chosen)) then reject (Message "No quote found")
  else
    length <- length_of (quote chosen) ;;
    digits <- digits_of (quote chosen) ;;
    digitPercentage <- quotient digits length ;;
    minLength <- get minLength ;;
    maxLength <- get maxLength ;;
    numericLimit <- get numericLimit ;;
    if Z.of_nat length <? minLength then reject (Message "Quote is too short")
    else if maxLength <? Z.of_nat length then reject (Message "Quote is too long")
    else if num_gtb digitPercentage numericLimit
         then reject (Message "Quote is too numeric")
    else ret chosen.

Section Pipeline.

Variable env : environment.

Definition getQuotesForSection (pageId : Z) (sectionIndex : jsval)
  : M QuotesResult :=
  data <- ajaxGet env (ParseSection pageId sectionIndex) ;;
  match data with
  | Rendering parse =>
      let allQuotes := querySelectorAll (text parse) in
      let parsedQuotes :=
        fold_left
          (fun parsedQuotes quote =>
             parsedQuotes ++ [outerText (replaceUnwanted childrenToKeep quote)])
          allQuotes [] in
      ret (mkQuotesResult (rendering_title parse) parsedQuotes)
  | Outline _ => reject TypeError
  | RandomList _ | NoParse => reject (Message "Page has no valid section")
  end.

Definition getSectionsForPage (pageId : Z) : M SectionsResult :=
  data <- ajaxGet env (ParseSections pageId) ;;
  match data with
  | Outline parse =>
      let sectionArray := collectSections (sections parse) in
      let sectionArray :=
        if (List.length sectionArray =? 0)%nat then sectionArray ++ [lit "1"]
        else sectionArray in
      ret (mkSectionsResult pageId (outline_title parse) sectionArray)
  | Rendering parse =>
      ret (mkSectionsResult pageId (rendering_title parse) [lit "1"])
  | RandomList _ | NoParse => reject TypeError
  end.

Definition getRandomPage : M Z :=
  data <- ajaxGet env QueryRandom ;;
  match data with
  | RandomList (Some id) =>
      if id =? 0 then reject (Message "Invalid random page id") else ret id
  | RandomList None => reject (Message "Invalid random page id")
  | _ => reject TypeError
  end.

Definition randomSection (sections : list jsstring) : M jsval :=
  i <- randomNum env (List.length sections) ;; ret (at_index sections i).

Definition randomQuote (result : QuotesResult) : M jsval :=
  i <- randomNum env (List.length (quotes result)) ;;
  ret (at_index (quotes result) i).

Definition chooseQuote (result : QuotesResult) : M QuoteResult :=
  q <- randomQuote result ;; ret (mkQuoteResult (titles result) q).

Definition attempt : M QuoteResult :=
  pageId <- getRandomPage ;;
  data <- getSectionsForPage pageId ;;
  sectionIndex <- randomSection (sr_sections data) ;;
  quotes <- getQuotesForSection (sr_pageId data) sectionIndex ;;
  quote <- chooseQuote quotes ;;
  checkQuote quote.

Fixpoint mainSequence (fuel : nat) (numRetry : nat) : M QuoteResult :=
  match fuel with
  | O => fun st => (OutOfFuel, st)
  | S fuel' =>
      catch attempt
        (fun reason =>
           console_log reason ;;;
           let numRetry := S numRetry in
           if (RETRY_LIMIT <=? numRetry)%nat
           then reject (Message "Retry limit reached")
           else mainSequence fuel' numRetry)
  end.

Definition getRandomQuote : M QuoteResult :=
  mainSequence RETRY_LIMIT 0.

End Pipeline.

End Part001.

(** ** Vocabulary of the statements *)

(** The acceptance condition, in the words of the specification: the length
    lies between the two thresholds and the digit ratio does not exceed the
    numeric limit, all three read from the state. *)
Definition withinThresholds (st : state) (s : jsstring) : Prop :=
  minLength st <= Z.of_nat (List.length s) <= maxLength st
  /\ num_le (digitRatio s) (numericLimit st).

(** Two white space characters next to each other somewhere in the string. *)
Fixpoint adjacentSpaces (s : jsstring) : bool :=
  match s with
  | c :: t => (isSpace c && startsWithSpace t) || adjacentSpaces t
  | [] => false
  end.

Definition endsWithSpace (s : jsstring) : bool := startsWithSpace (rev s).

(** The same condition as a test. *)
Definition num_leb (x : num) (y : Q) : bool :=
  match x with
  | Fin q => Qle_bool q y
  | _ => false
  end.

Definition withinThresholdsb (st : state) (s : jsstring) : bool :=
  (minLength st <=? Z.of_nat (List.length s))
  && (Z.of_nat (List.length s) <=? maxLength st)
  && num_leb (digitRatio s) (numericLimit st).

Definition sameConfig (st st' : state) : Prop :=
  minLength st' = minLength st
  /\ maxLength st' = maxLength st
  /\ numericLimit st' = numericLimit st.

(** Nothing that can be observed from outside changed: the configuration,
    the requests sent, the random draws and the console are as before. *)
Definition sameEffects (st st' : state) : Prop :=
  sameConfig st st'
  /\ requests st' = requests st
  /\ draws st' = draws st
  /\ console st' = console st.

Definition isQueryRandom (r : request) : bool :=
  match r with
  | QueryRandom => true
  | _ => false
  end.

(** The number of attempts started so far: every pass of the chain starts
    with the one request for a random page. *)
Definition attempts (st : state) : nat :=
  List.length (filter isQueryRandom (requests st)).

(** [frame k st st']: between [st] and [st'] the configuration and the
    console did not change and [k] attempts were started. *)
Definition frame (k : nat) (st st' : state) : Prop :=
  sameConfig st st'
  /\ console st' = console st
  /\ attempts st' = (attempts st + k)%nat.

(** A computation that stays within [frame k], whether it returns, rejects
    or waits, and within the bound of the recursion. *)
Definition effect {A} (k : nat) (m : M A) : Prop :=
  forall st,
    match m st with
    | (OutOfFuel, _) => False
    | (_, st') => frame k st st'
    end.

(** The state after [ajaxGet]: one more request on record. *)
Definition requested (url : request) (st : state) : state :=
  mkState (minLength st) (maxLength st) (numericLimit st)
    (requests st ++ [url]) (draws st) (console st) (divisions st).

(** The retry loop the variants share, over any chain and any limit. *)
Fixpoint retrying {A} (limit : nat) (chain : M A) (fuel numRetry : nat) : M A :=
  match fuel with
  | O => fun st => (OutOfFuel, st)
  | S fuel' =>
      catch chain
        (fun reason =>
           console_log reason ;;;
           if (limit <=? S numRetry)%nat
           then reject (Message "Retry limit reached")
           else retrying limit chain fuel' (S numRetry))
  end.

(** Every request is answered: the promise of [ajaxGet] settles. *)
Definition answered (env : environment) : Prop :=
  forall n url, respond env n url <> Unanswered.

(** The last request on record was left without an answer. *)
Definition unanswered (env : environment) (st : state) : Prop :=
  exists earlier url,
    requests st = earlier ++ [url]
    /\ respond env (List.length earlier) url = Unanswered.

(** A computation that never settles only when it is left in a state of
    which [P] holds. *)
Definition hangsOnly {A} (P : state -> Prop) (m : M A) : Prop :=
  forall st st', m st = (Hangs, st') -> P st'.

(** [Math.random()] returns a number of the interval from 0 (included) to 1
    (excluded). *)
Definition unitInterval (env : environment) : Prop :=
  forall n, (0 <= Math_random env n)%Q /\ (Math_random env n < 1)%Q.

(** ** Worked examples *)

(** A rendered section: the document that the parser builds, with the
    [div] that wraps the rendering of every section. *)
Definition rendered (content : list node) : node :=
  Elem "HTML" [Elem "HEAD" []; Elem "BODY" [Elem "DIV" content]].

(** The scenario of the specification: the random page has id 42, its
    outline has the sections numbered 1 and 1.1 (with the indexes 1 and 2),
    and the section lists the two items below.  Every draw is one half. *)
Definition hamletItems : list node :=
  [Elem "LI" [Text (lit "To be or not to be, that is the question.")];
   Elem "LI" [Text (lit "1997")]].

Definition hamlet : environment :=
  mkEnvironment
    (fun _ url =>
       match url with
       | QueryRandom => Responds (RandomList (Some 42))
       | ParseSections _ =>
           Responds (Outline (mkOutline (lit "Hamlet")
                                [mkSection (lit "1") (lit "1");
                                 mkSection (lit "2") (lit "1.1")]))
       | ParseSection _ _ =>
           Responds (Rendering (mkRendering (lit "Hamlet")
                                  (rendered [Elem "UL" hamletItems])))
       end)
    (fun _ => 1 # 2).


(** The markup
    [<ul><li>Hello <b>world</b> <sup>[1]</sup><ul><li>note</li></ul></li></ul>]
    as a list of nodes. *)
Definition helloMarkup : list node :=
  [Elem "UL"
     [Elem "LI"
        [Text (lit "Hello "); Elem "B" [Text (lit "world")]; Text (lit " ");
         Elem "SUP" [Text (lit "[1]")];
         Elem "UL" [Elem "LI" [Text (lit "note")]]]]].

(** A site whose every section renders as the given document. *)
Definition alwaysRenders (title : jsstring) (document : node) : environment :=
  mkEnvironment
    (fun n url =>
       match url with
       | ParseSection _ _ => Responds (Rendering (mkRendering title document))
       | _ => respond hamlet n url
       end)
    (Math_random hamlet).

(** The markup above as the rendering of a section, inside the [div] of the
    rendering, and as the parser builds it from the bare string. *)
Definition helloSite : environment :=
  alwaysRenders (lit "Greeting") (rendered helloMarkup).

Definition helloBare : environment :=
  alwaysRenders (lit "Greeting")
    (Elem "HTML" [Elem "HEAD" []; Elem "BODY" helloMarkup]).

(** A section that exists and has a paragraph but no list. *)
Definition proseSite : environment :=
  alwaysRenders (lit "Prose")
    (rendered [Elem "P" [Text (lit "There is no list in this section.")]]).

(** The configuration after [setMinLength(0)]. *)
Definition lenient : state := mkState 0 300 (1 # 10) [] 0 [] [].

(** ** [ajaxGet], from the inside *)

(** What the handler reads from the request object when it is called. *)
Record xhr := mkXhr {
  readyState : N;
  status : N;
  responseText : jsstring
}.

Inductive promise :=
| Pending
| Fulfilled (d : data)
| Rejected (r : reason).

(** [resolve] and [reject] settle a pending promise and do nothing to a
    settled one. *)
Definition settle (p settlement : promise) : promise :=
  match p with
  | Pending => settlement
  | _ => p
  end.

Section Xhr.

(** [JSON.parse], which returns the body or throws a SyntaxError. *)
Variable JSON_parse : jsstring -> option data.

(** One call of [xmlhttp.onreadystatechange]. *)
Definition onreadystatechange (x : xhr) (p : promise) : promise :=
  if (negb (readyState x =? 4) || (status x =? 0))%N then p
  else if negb (status x =? 200)%N
  then settle p (Rejected (Message ("Invalid Response: "
                                    ++ NilZero.string_of_uint (N.to_uint (status x)))))
  else match JSON_parse (responseText x) with
       | Some data => settle p (Fulfilled data)
       | None => settle p (Rejected SyntaxError)
       end.

(** The promise of [ajaxGet] after the handler has been called for each of
    the changes, in order. *)
Definition ajaxGetPromise (changes : list xhr) : promise :=
  fold_left (fun p x => onreadystatechange x p) changes Pending.

(** The change that settles the promise: the request is done and its status
    is not 0. *)
Definition decisive (x : xhr) : bool :=
  ((readyState x =? 4) && negb (status x =? 0))%N.


End Xhr.


(** ** The orchestrator of [part_000] and [part_002]

    The two files share everything but [getQuotesForSection], which goes
    through jQuery and is a parameter here, as is the constructor [Error]. *)

Module WikiquoteApi.

Definition retryLimit : nat := 10.

Definition checkQuote (chosen : QuoteResult) : M QuoteResult :=
  if negb (truthy (quote chosen)) then reject (Message "No quote found")
  else
    length <- length_of (quote chosen) ;;
    digits <- digits_of (quote chosen) ;;
    digitPercentage <- quotient digits length ;;
    minLength <- get minLength ;;
    maxLength <- get maxLength ;;
    numericLimit <- get numericLimit ;;
    if Z.of_nat length <? minLength then reject (Message "Quote is too short")
    else if maxLength <? Z.of_nat length then reject (Message "Quote is too long")
    else if num_gtb digitPercentage numericLimit
         then reject (Message "Quote is too numeric")
    else ret chosen.

Section Pipeline.

Variable env : environment.

(** [new Error(error)] *)
Variable newError : reason -> reason.

(** [wqa.getQuotesForSection] *)
Variable getQuotesForSection : Z -> jsval -> M QuotesResult.

Definition getSectionsForPage (pageId : Z) : M SectionsResult :=
  catch
    (data <- ajaxGet env (ParseSections pageId) ;;
     match data with
     | Outline parse =>
         let sectionArray := collectSections (sections parse) in
         let sectionArray :=
           if (List.length sectionArray =? 0)%nat then sectionArray ++ [lit "1"]
           else sectionArray in
         ret (mkSectionsResult pageId (outline_title parse) sectionArray)
     | Rendering parse =>
         ret (mkSectionsResult pageId (rendering_title parse) [lit "1"])
     | RandomList _ | NoParse => reject TypeError
     end)
    (fun error => reject (newError error)).

Definition getRandomPage : M Z :=
  catch
    (data <- ajaxGet env QueryRandom ;;
     match data with
     | RandomList (Some id) =>
         if id =? 0 then reject (newError (Message "Invalid random page id"))
         else ret id
     | RandomList None => reject (newError (Message "Invalid random page id"))
     | _ => reject TypeError
     end)
    (fun error => reject (newError error)).

Definition randomSection (sections : list jsstring) : M jsval :=
  i <- randomNum env (List.length sections) ;; ret (at_index sections i).

Definition randomQuote (result : QuotesResult) : M jsval :=
  i <- randomNum env (List.length (quotes result)) ;;
  ret (at_index (quotes result) i).

Definition chooseQuote (result : QuotesResult) : M QuoteResult :=
  q <- randomQuote result ;; ret (mkQuoteResult (titles result) q).

Definition attempt : M QuoteResult :=
  pageId <- getRandomPage ;;
  data <- getSectionsForPage pageId ;;
  sectionIndex <- randomSection (sr_sections data) ;;
  quotes <- getQuotesForSection (sr_pageId data) sectionIndex ;;
  quote <- chooseQuote quotes ;;
  checkQuote quote.

Fixpoint mainSequence (fuel : nat) (numRetry : nat) : M QuoteResult :=
  match fuel with
  | O => fun st => (OutOfFuel, st)
  | S fuel' =>
      catch attempt
        (fun reason =>
           console_log reason ;;;
           let numRetry := S numRetry in
           if (retryLimit <=? numRetry)%nat
           then reject (Message "Retry limit reached")
           else mainSequence fuel' numRetry)
  end.

Definition getRandomQuote : M QuoteResult :=
  mainSequence retryLimit 0.

End Pipeline.

End WikiquoteApi.

(** ** The text of a list item in [part_000]

    The body of the loop in the [success] callback of
    [wqa.getQuotesForSection]; the request itself goes through jQuery. *)

Module Part000.

Definition childrenToKeep : list string :=
  ["B"; "STRONG"; "I"; "EM,"; "MARK"; "SMALL"; "DEL"; "INS"; "SUB"; "SUP";
   "A"]%string.

Definition quoteText (quote : node) : jsstring :=
  outerText (replaceUnwanted childrenToKeep quote).

End Part000.

(** An element with one of the tags that [part_001] keeps and [part_000]
    does not is replaced by the text node [" "]. *)
Definition dropEmphasis (child : node) : node :=
  match child with
  | Elem t _ =>
      if existsb (String.eqb t) ["EM"; "ABBR"; "PRE"; "CODE"; "DFN"; "SAMP"]%string
      then Text [SPACE] else child
  | Text _ => child
  end.

Definition hasTag (t : string) (child : node) : Prop :=
  match child with
  | Elem u _ => u = t
  | Text _ => False
  end.

(** ** Vocabulary of the further statements *)

(** The code units of a string that are not white space. *)
Definition visible (s : jsstring) : jsstring :=
  filter (fun c => negb (isSpace c)) s.

(** Between [st] and [st'] the configuration did not change, at most [a]
    requests were sent, after the earlier ones, and at most [b] numbers were
    drawn. *)
Definition spends (a b : nat) (st st' : state) : Prop :=
  sameConfig st st'
  /\ (exists sent, requests st' = requests st ++ sent
                   /\ (List.length sent <= a)%nat)
  /\ (draws st <= draws st' <= draws st + b)%nat.

Definition within {A} (a b : nat) (m : M A) : Prop :=
  forall st,
    match m st with
    | (OutOfFuel, _) => False
    | (_, st') => spends a b st st'
    end.

(** Thresholds that no string can meet. *)
Definition unsatisfiable (st : state) : Prop :=
  maxLength st < minLength st \/ maxLength st < 1 \/ (numericLimit st < 0)%Q.

(** The site of the scenario when every draw is 0. *)
Definition hamletFirst : environment :=
  mkEnvironment (respond hamlet) (fun _ => 0%Q).

(** A configuration with [minLength] above [maxLength]. *)
Definition crossed : state := mkState 10 5 (1 # 10) [] 0 [] [].

(** * Properties *)

(** ** The monad *)

Lemma bind_Return {A B} (m : M A) (k : A -> M B) st b st'' :
  bind m k st = (Return b, st'') ->
  exists a st', m st = (Return a, st') /\ k a st' = (Return b, st'').
Proof.
  unfold bind. destruct (m st) as [[a | r | |] st']; intros H; try discriminate.
  exists a, st'. split; [reflexivity | exact H].
Qed.

Lemma sameConfig_refl st : sameConfig st st.
Proof. repeat split. Qed.

Lemma sameConfig_trans st1 st2 st3 :
  sameConfig st1 st2 -> sameConfig st2 st3 -> sameConfig st1 st3.
Proof.
  unfold sameConfig. intros (a & b & c) (d & e & f).
  repeat split; congruence.
Qed.

Lemma frame_refl st : frame 0 st st.
Proof.
  unfold frame. split; [apply sameConfig_refl | split; [reflexivity | lia]].
Qed.

Lemma frame_trans j k st1 st2 st3 :
  frame j st1 st2 -> frame k st2 st3 -> frame (j + k) st1 st3.
Proof.
  unfold frame. intros (c1 & l1 & a1) (c2 & l2 & a2).
  split; [eapply sameConfig_trans; eassumption |].
  split; [congruence | lia].
Qed.

Lemma withinThresholds_sameConfig st st' s :
  sameConfig st st' -> withinThresholds st s -> withinThresholds st' s.
Proof.
  unfold sameConfig, withinThresholds. intros (a & b & c). rewrite a, b, c. tauto.
Qed.

Lemma effect_ret {A} (a : A) : effect 0 (ret a).
Proof. intros st. apply frame_refl. Qed.

Lemma effect_reject {A} r : effect 0 (@reject A r).
Proof. intros st. apply frame_refl. Qed.

Lemma effect_get {A} (f : state -> A) : effect 0 (get f).
Proof. intros st. apply frame_refl. Qed.

Lemma effect_bind {A B} k (m : M A) (f : A -> M B) :
  effect k m -> (forall a, effect 0 (f a)) -> effect k (bind m f).
Proof.
  intros Hm Hf st. unfold bind. specialize (Hm st).
  destruct (m st) as [[a | r | |] st1]; try assumption.
  specialize (Hf a st1).
  destruct (f a st1) as [[b | r | |] st2]; try assumption;
    replace k with (k + 0)%nat by lia; eapply frame_trans; eassumption.
Qed.

Lemma effect_quotient n d : effect 0 (quotient n d).
Proof. intros st. unfold frame, sameConfig, attempts. cbn. repeat split; lia. Qed.

Lemma effect_length_of v : effect 0 (length_of v).
Proof. destruct v; [apply effect_reject | apply effect_reject | apply effect_ret]. Qed.

Lemma effect_digits_of v : effect 0 (digits_of v).
Proof. destruct v; [apply effect_reject | apply effect_reject | apply effect_ret]. Qed.

Lemma effect_for_of {A B} (xs : list A) (body : A -> B -> M B) :
  (forall x acc, effect 0 (body x acc)) -> forall acc, effect 0 (for_of xs body acc).
Proof.
  intros Hb. induction xs as [| x rest IH]; intros acc; cbn [for_of].
  - apply effect_ret.
  - apply effect_bind; [apply Hb | intros a; apply IH].
Qed.

Lemma effect_ajaxGet env url :
  effect (if isQueryRandom url then 1 else 0) (ajaxGet env url).
Proof.
  intros st. unfold ajaxGet.
  assert (F : frame (if isQueryRandom url then 1 else 0) st
                (mkState (minLength st) (maxLength st) (numericLimit st)
                   (requests st ++ [url]) (draws st) (console st) (divisions st))).
  { unfold frame, sameConfig, attempts. cbn.
    rewrite filter_app, length_app. cbn.
    destruct (isQueryRandom url); cbn; repeat split; lia. }
  destruct (respond env (List.length (requests st)) url); exact F.
Qed.

Lemma effect_randomNum env max : effect 0 (randomNum env max).
Proof. intros st. unfold frame, sameConfig, attempts. cbn. repeat split; lia. Qed.

(** ** The validator *)

(** The state after the division of [isQuoteValid] and [checkQuote]. *)
Lemma quotient_run n d st :
  quotient n d st
  = (Return (divide n d),
     mkState (minLength st) (maxLength st) (numericLimit st) (requests st)
       (draws st) (console st) (divisions st ++ [(n, d)])).
Proof. reflexivity. Qed.

Lemma num_gtb_false_iff x y : num_gtb x y = false <-> (x = NaN \/ num_le x y).
Proof.
  destruct x as [| | q]; cbn.
  - split; [intros _; left; reflexivity | reflexivity].
  - split; [discriminate | intros [H | []]; discriminate].
  - rewrite negb_false_iff, Qle_bool_iff.
    split; [intros H; right; exact H | intros [H | H]; [discriminate | exact H]].
Qed.

Lemma digitRatio_nonempty c s :
  digitRatio (c :: s)
  = Fin (Z.of_nat (countDigits (c :: s)) # Pos.of_nat (List.length (c :: s))).
Proof. reflexivity. Qed.

Lemma withinThresholds_nonempty st s : withinThresholds st s -> s <> [].
Proof. intros [_ H] ->. exact H. Qed.

Lemma isQuoteValid_falsy v st :
  truthy v = false -> RandomWikiquote.isQuoteValid v st = (Return false, st).
Proof. intros H. unfold RandomWikiquote.isQuoteValid. rewrite H. reflexivity. Qed.

Lemma isQuoteValid_string c s st :
  RandomWikiquote.isQuoteValid (JStr (c :: s)) st
  = (Return (negb ((Z.of_nat (List.length (c :: s)) <? minLength st)
                   || (maxLength st <? Z.of_nat (List.length (c :: s)))
                   || num_gtb (digitRatio (c :: s)) (numericLimit st))),
     mkState (minLength st) (maxLength st) (numericLimit st) (requests st)
       (draws st) (console st)
       (divisions st ++ [(countDigits (c :: s), List.length (c :: s))])).
Proof.
  unfold RandomWikiquote.isQuoteValid, bind, length_of, digits_of, ret, get.
  cbn [truthy negb]. rewrite quotient_run. cbn [minLength maxLength numericLimit].
  fold (digitRatio (c :: s)).
  destruct ((Z.of_nat (List.length (c :: s)) <? minLength st)
            || (maxLength st <? Z.of_nat (List.length (c :: s)))
            || num_gtb (digitRatio (c :: s)) (numericLimit st)); reflexivity.
Qed.

Lemma thresholds_bool st s :
  s <> [] ->
  negb ((Z.of_nat (List.length s) <? minLength st)
        || (maxLength st <? Z.of_nat (List.length s))
        || num_gtb (digitRatio s) (numericLimit st)) = true
  <-> withinThresholds st s.
Proof.
  intros Hs. unfold withinThresholds.
  rewrite negb_true_iff, !orb_false_iff, !Z.ltb_ge, num_gtb_false_iff.
  destruct s as [| c s]; [contradiction |].
  rewrite digitRatio_nonempty.
  split.
  - intros [[H1 H2] [H3 | H3]]; [discriminate | repeat split; assumption].
  - intros [[H1 H2] H3]. repeat split; try assumption. right; exact H3.
Qed.

(** What [isQuoteValid] does on any value: it returns, changes nothing that
    can be observed, and answers [true] exactly for the strings within the
    thresholds of the state it runs in. *)
Lemma isQuoteValid_run v st :
  exists b st',
    RandomWikiquote.isQuoteValid v st = (Return b, st')
    /\ sameEffects st st'
    /\ (b = true <-> exists s, v = JStr s /\ withinThresholds st s).
Proof.
  destruct (truthy v) eqn:T.
  - destruct v as [| | [| c s]]; try discriminate.
    eexists; eexists. split; [apply isQuoteValid_string |].
    split; [repeat split |].
    rewrite thresholds_bool by discriminate.
    split.
    + intros H. exists (c :: s). split; [reflexivity | exact H].
    + intros (s' & E & H). injection E as <-. exact H.
  - exists false, st. split; [apply isQuoteValid_falsy; exact T |].
    split; [repeat split |].
    split; [discriminate |].
    intros (s & -> & H). apply withinThresholds_nonempty in H.
    destruct s; [contradiction | discriminate].
Qed.

Lemma effect_isQuoteValid v : effect 0 (RandomWikiquote.isQuoteValid v).
Proof.
  intros st. destruct (isQuoteValid_run v st) as (b & st' & E & (C & R & D & L) & _).
  rewrite E. unfold frame, attempts. rewrite R, L. repeat split; try apply C. lia.
Qed.

Lemma withinThresholdsb_iff st s :
  withinThresholdsb st s = true <-> withinThresholds st s.
Proof.
  unfold withinThresholdsb, withinThresholds.
  rewrite !andb_true_iff, !Z.leb_le.
  destruct (digitRatio s) as [| | q]; cbn.
  - split; [intros [_ H]; discriminate | intros [_ []]].
  - split; [intros [_ H]; discriminate | intros [_ []]].
  - rewrite Qle_bool_iff. tauto.
Qed.

Lemma withinThresholdsb_sameConfig st st' s :
  sameConfig st st' -> withinThresholdsb st' s = withinThresholdsb st s.
Proof.
  unfold sameConfig, withinThresholdsb. intros (a & b & c). rewrite a, b, c.
  reflexivity.
Qed.

Lemma sameEffects_refl st : sameEffects st st.
Proof. repeat split. Qed.

Lemma sameEffects_trans st1 st2 st3 :
  sameEffects st1 st2 -> sameEffects st2 st3 -> sameEffects st1 st3.
Proof.
  unfold sameEffects. intros (c1 & r1 & d1 & l1) (c2 & r2 & d2 & l2).
  split; [eapply sameConfig_trans; eassumption |].
  repeat split; congruence.
Qed.

(** [isQuoteValid] on a string computes the test of the specification. *)
Lemma isQuoteValid_test s st :
  exists st',
    RandomWikiquote.isQuoteValid (JStr s) st = (Return (withinThresholdsb st s), st')
    /\ sameEffects st st'.
Proof.
  destruct (isQuoteValid_run (JStr s) st) as (b & st' & E & F & I).
  exists st'. split; [| exact F]. rewrite E. f_equal. f_equal.
  destruct b, (withinThresholdsb st s) eqn:W; try reflexivity.
  - destruct I as [I _]. destruct (I eq_refl) as (s' & Es & H).
    injection Es as <-. apply withinThresholdsb_iff in H. congruence.
  - apply withinThresholdsb_iff in W. destruct I as [_ I]. apply I.
    exists s. split; [reflexivity | exact W].
Qed.

(** ** Extraction in the primary implementation *)

(** The loop of [getQuotesForSection] keeps, in document order and with
    repetitions, the strings that pass the test. *)
Lemma pushIfValid_run quote parsedQuotes st :
  exists st',
    RandomWikiquote.pushIfValid quote parsedQuotes st
    = (Return (parsedQuotes
               ++ filter (withinThresholdsb st) [RandomWikiquote.plainQuote quote]),
       st')
    /\ sameEffects st st'.
Proof.
  destruct (isQuoteValid_test (RandomWikiquote.plainQuote quote) st)
    as (st1 & E1 & F1).
  exists st1. split; [| exact F1].
  unfold RandomWikiquote.pushIfValid, bind. rewrite E1. cbn [filter].
  destruct (withinThresholdsb st (RandomWikiquote.plainQuote quote));
    [reflexivity | rewrite app_nil_r; reflexivity].
Qed.

Lemma extraction_loop (allQuotes : list node) :
  forall parsedQuotes st,
  exists st',
    for_of allQuotes RandomWikiquote.pushIfValid parsedQuotes st
    = (Return (parsedQuotes
               ++ filter (withinThresholdsb st)
                    (map RandomWikiquote.plainQuote allQuotes)), st')
    /\ sameEffects st st'.
Proof.
  induction allQuotes as [| quote rest IH]; intros acc st; cbn [for_of map].
  - exists st. cbn [filter]. rewrite app_nil_r.
    split; [reflexivity | apply sameEffects_refl].
  - destruct (pushIfValid_run quote acc st) as (st1 & E1 & F1).
    destruct (IH (acc ++ filter (withinThresholdsb st)
                           [RandomWikiquote.plainQuote quote]) st1)
      as (st2 & E2 & F2).
    exists st2. split; [| eapply sameEffects_trans; eassumption].
    unfold bind. rewrite E1, E2, <- app_assoc.
    change (RandomWikiquote.plainQuote quote
            :: map RandomWikiquote.plainQuote rest)
      with ([RandomWikiquote.plainQuote quote]
            ++ map RandomWikiquote.plainQuote rest).
    rewrite filter_app. do 4 f_equal. apply filter_ext. intros s.
    apply withinThresholdsb_sameConfig, F1.
Qed.

Section PrimaryExtraction.

Variable env : environment.

(** [getQuotesForSection] on a rendered section: the strings of the matched
    list items that pass the test, or a rejection when there is none. *)
Lemma getQuotesForSection_rendered pageId sectionIndex st parse :
  respond env (List.length (requests st)) (ParseSection pageId sectionIndex)
  = Responds (Rendering parse) ->
  exists st',
    RandomWikiquote.getQuotesForSection env pageId sectionIndex st
    = (match filter (withinThresholdsb st)
               (map RandomWikiquote.plainQuote (querySelectorAll (text parse))) with
       | [] => Reject (Message "Section has no valid quote.")
       | q :: qs => Return (mkQuotesResult (rendering_title parse) (q :: qs))
       end, st')
    /\ sameEffects (requested (ParseSection pageId sectionIndex) st) st'.
Proof.
  intros R. unfold RandomWikiquote.getQuotesForSection, bind at 1, ajaxGet.
  rewrite R.
  fold (requested (ParseSection pageId sectionIndex) st).
  destruct (extraction_loop (querySelectorAll (text parse)) []
              (requested (ParseSection pageId sectionIndex) st))
    as (st' & E & F).
  exists st'. split; [| exact F].
  unfold bind. rewrite E. cbn [app].
  replace (withinThresholdsb (requested (ParseSection pageId sectionIndex) st))
    with (withinThresholdsb st) by reflexivity.
  destruct (filter (withinThresholdsb st)
              (map RandomWikiquote.plainQuote (querySelectorAll (text parse))));
    reflexivity.
Qed.

(** A successful extraction comes from a rendered section and is the
    filtered list, which is not empty. *)
Lemma getQuotesForSection_Return pageId sectionIndex st result st' :
  RandomWikiquote.getQuotesForSection env pageId sectionIndex st
  = (Return result, st') ->
  exists parse,
    respond env (List.length (requests st)) (ParseSection pageId sectionIndex)
    = Responds (Rendering parse)
    /\ titles result = rendering_title parse
    /\ quotes result
       = filter (withinThresholdsb st)
           (map RandomWikiquote.plainQuote (querySelectorAll (text parse)))
    /\ quotes result <> []
    /\ sameEffects (requested (ParseSection pageId sectionIndex) st) st'.
Proof.
  intros H.
  destruct (respond env (List.length (requests st))
              (ParseSection pageId sectionIndex)) as [[id | o | parse |] | r |] eqn:R.
  1, 2, 4, 5, 6:
    unfold RandomWikiquote.getQuotesForSection, bind, ajaxGet in H;
    rewrite R in H; discriminate.
  destruct (getQuotesForSection_rendered _ _ _ _ R) as (st1 & E & F).
  rewrite E in H. exists parse. split; [reflexivity |].
  destruct (filter (withinThresholdsb st)
              (map RandomWikiquote.plainQuote (querySelectorAll (text parse))));
    [discriminate |].
  injection H as <- <-. cbn. repeat split; try apply F. discriminate.
Qed.

End PrimaryExtraction.

(** ** The retry loop *)

Ltac effects :=
  repeat first
    [ apply effect_ret | apply effect_reject | apply effect_get
    | apply effect_quotient | apply effect_length_of | apply effect_digits_of
    | apply effect_randomNum | apply effect_isQuoteValid
    | apply effect_for_of; intros ? ?
    | apply effect_bind; [| intros ?]
    | match goal with
      | |- effect _ (match ?x with _ => _ end) => destruct x
      end ].

(** A chain that starts one attempt is run at most [limit] times by the loop;
    when the loop returns, the value comes from a pass of the chain that
    returned; when it rejects, the chain was run [limit] times, every pass
    was rejected and logged, and the reason is the retry limit; when it never
    settles, a pass of the chain never settled, after the passes before it
    were rejected and logged. *)
Lemma retrying_run {A} (limit : nat) (chain : M A) :
  effect 1 chain ->
  forall fuel numRetry st,
    (numRetry < limit)%nat -> (limit - numRetry <= fuel)%nat ->
    match retrying limit chain fuel numRetry st with
    | (Return a, st') =>
        exists j st0,
          (1 <= j <= limit - numRetry)%nat
          /\ attempts st' = (attempts st + j)%nat
          /\ List.length (console st') = (List.length (console st) + (j - 1))%nat
          /\ sameConfig st st0
          /\ chain st0 = (Return a, st')
    | (Reject r, st') =>
        r = Message "Retry limit reached"
        /\ attempts st' = (attempts st + (limit - numRetry))%nat
        /\ List.length (console st')
           = (List.length (console st) + (limit - numRetry))%nat
        /\ sameConfig st st'
    | (OutOfFuel, _) => False
    | (Hangs, st') =>
        exists j st0,
          (1 <= j <= limit - numRetry)%nat
          /\ attempts st' = (attempts st + j)%nat
          /\ List.length (console st') = (List.length (console st) + (j - 1))%nat
          /\ sameConfig st st0
          /\ chain st0 = (Hangs, st')
    end.
Proof.
  intros Hc. induction fuel as [| fuel IH]; intros numRetry st Hn Hf; [lia |].
  cbn [retrying]. unfold catch. specialize (Hc st).
  destruct (chain st) as [[a | r | |] st1] eqn:E; [| | contradiction |].
  - exists 1%nat, st. destruct Hc as (C & L & N).
    repeat split; try lia; try apply C.
    + rewrite L. lia.
    + exact E.
  - destruct Hc as (C & L & N). unfold bind at 1, console_log at 1.
    set (st2 := mkState (minLength st1) (maxLength st1) (numericLimit st1)
                  (requests st1) (draws st1) (console st1 ++ [r]) (divisions st1)).
    assert (C2 : sameConfig st st2) by exact C.
    assert (N2 : attempts st2 = S (attempts st)) by (unfold attempts in *; cbn; lia).
    assert (L2 : List.length (console st2) = S (List.length (console st))).
    { cbn. rewrite length_app, L. cbn. lia. }
    destruct (Nat.leb_spec limit (S numRetry)) as [Hlim | Hlim].
    + unfold reject. repeat split; try apply C2; try lia.
    + specialize (IH (S numRetry) st2 Hlim ltac:(lia)).
      destruct (retrying limit chain fuel (S numRetry) st2)
        as [[a | r' | |] st']; [| | exact IH |].
      * destruct IH as (j & st0 & Hj & Na & La & Ca & Ea).
        exists (S j), st0. split; [lia |]. split; [lia |]. split; [lia |].
        split; [eapply sameConfig_trans; eassumption | exact Ea].
      * destruct IH as (-> & Na & La & Ca).
        split; [reflexivity |]. split; [lia |]. split; [lia |].
        eapply sameConfig_trans; eassumption.
      * destruct IH as (j & st0 & Hj & Na & La & Ca & Ea).
        exists (S j), st0. split; [lia |]. split; [lia |]. split; [lia |].
        split; [eapply sameConfig_trans; eassumption | exact Ea].
  - exists 1%nat, st. destruct Hc as (C & L & N).
    repeat split; try lia; try apply C.
    + rewrite L. lia.
    + exact E.
Qed.

Section PrimaryPipeline.

Variable env : environment.

Lemma effect_getRandomPage : effect 1 (RandomWikiquote.getRandomPage env).
Proof.
  unfold RandomWikiquote.getRandomPage. apply effect_bind.
  - exact (effect_ajaxGet env QueryRandom).
  - intros d. effects. all: destruct (_ =? 0); effects.
Qed.

Lemma effect_getSectionsForPage pageId :
  effect 0 (RandomWikiquote.getSectionsForPage env pageId).
Proof.
  unfold RandomWikiquote.getSectionsForPage. apply effect_bind.
  - exact (effect_ajaxGet env (ParseSections pageId)).
  - intros d. effects.
Qed.

Lemma effect_getQuotesForSection pageId sectionIndex :
  effect 0 (RandomWikiquote.getQuotesForSection env pageId sectionIndex).
Proof.
  unfold RandomWikiquote.getQuotesForSection. apply effect_bind.
  - exact (effect_ajaxGet env (ParseSection pageId sectionIndex)).
  - intros d. destruct d; effects.
    all: unfold RandomWikiquote.pushIfValid; effects.
Qed.

Lemma effect_attempt : effect 1 (RandomWikiquote.attempt env).
Proof.
  unfold RandomWikiquote.attempt. apply effect_bind.
  - apply effect_getRandomPage.
  - intros pageId. apply effect_bind; [apply effect_getSectionsForPage |].
    intros d. apply effect_bind.
    + unfold RandomWikiquote.randomSection. effects.
    + intros i. apply effect_bind; [apply effect_getQuotesForSection |].
      intros q. unfold RandomWikiquote.chooseQuote, RandomWikiquote.randomQuote.
      effects.
Qed.

Lemma mainSequence_retrying fuel numRetry :
  RandomWikiquote.mainSequence env fuel numRetry
  = retrying RandomWikiquote.RETRY_LIMIT (RandomWikiquote.attempt env) fuel numRetry.
Proof.
  revert numRetry. induction fuel as [| fuel IH]; intros numRetry; cbn.
  - reflexivity.
  - rewrite IH. reflexivity.
Qed.

End PrimaryPipeline.

(** ** The variant [part_001] *)

(** [checkQuote] returns the quote it is given when the quote is a string
    within the thresholds, and rejects otherwise. *)
Lemma checkQuote_run chosen st :
  match Part001.checkQuote chosen st with
  | (Return r, st') =>
      r = chosen
      /\ (exists s, quote chosen = JStr s /\ withinThresholds st s)
      /\ sameEffects st st'
  | (Reject _, st') =>
      ~ (exists s, quote chosen = JStr s /\ withinThresholds st s)
      /\ sameEffects st st'
  | (OutOfFuel, _) => False
  | (Hangs, _) => False
  end.
Proof.
  unfold Part001.checkQuote.
  destruct (quote chosen) as [| | [| c s]] eqn:Q; cbn [truthy negb].
  1-3: unfold reject; split; [| apply sameEffects_refl];
       intros (s' & E & H); try discriminate;
       injection E as <-; apply withinThresholds_nonempty in H; congruence.
  unfold bind, length_of, digits_of, ret, get. rewrite quotient_run.
  cbn [minLength maxLength numericLimit]. fold (digitRatio (c :: s)).
  pose proof (thresholds_bool st (c :: s) ltac:(discriminate)) as T.
  destruct (Z.of_nat (List.length (c :: s)) <? minLength st);
    [| destruct (maxLength st <? Z.of_nat (List.length (c :: s)));
       [| destruct (num_gtb (digitRatio (c :: s)) (numericLimit st))]];
    cbn [orb negb] in T; unfold reject.
  1-3: split; [| repeat split]; intros (s' & E & H); injection E as <-;
       apply T in H; discriminate.
  split; [reflexivity |]. split; [| repeat split].
  exists (c :: s). split; [reflexivity | apply T; reflexivity].
Qed.

Lemma effect_checkQuote chosen : effect 0 (Part001.checkQuote chosen).
Proof.
  intros st. pose proof (checkQuote_run chosen st) as H.
  destruct (Part001.checkQuote chosen st) as [[r | r | |] st'];
    [| | exact H | destruct H].
  - destruct H as (_ & _ & C & R & D & L). unfold frame, attempts.
    rewrite R, L. repeat split; try apply C. lia.
  - destruct H as (_ & C & R & D & L). unfold frame, attempts.
    rewrite R, L. repeat split; try apply C. lia.
Qed.

(** The loop of the variant's [getQuotesForSection] pushes the text of every
    matched list item. *)
Lemma fold_left_push {A B} (f : A -> B) (xs : list A) (acc : list B) :
  fold_left (fun acc x => acc ++ [f x]) xs acc = acc ++ map f xs.
Proof.
  revert acc. induction xs as [| x rest IH]; intros acc; cbn.
  - rewrite app_nil_r. reflexivity.
  - rewrite IH, <- app_assoc. reflexivity.
Qed.

Section VariantPipeline.

Variable env : environment.

Lemma variant_getQuotesForSection_rendered pageId sectionIndex st parse :
  respond env (List.length (requests st)) (ParseSection pageId sectionIndex)
  = Responds (Rendering parse) ->
  Part001.getQuotesForSection env pageId sectionIndex st
  = (Return (mkQuotesResult (rendering_title parse)
               (map (fun quote =>
                       outerText (replaceUnwanted Part001.childrenToKeep quote))
                    (querySelectorAll (text parse)))),
     requested (ParseSection pageId sectionIndex) st).
Proof.
  intros R. unfold Part001.getQuotesForSection, bind, ajaxGet. rewrite R.
  rewrite fold_left_push. reflexivity.
Qed.

Lemma effect_variant_getRandomPage : effect 1 (Part001.getRandomPage env).
Proof.
  unfold Part001.getRandomPage. apply effect_bind.
  - exact (effect_ajaxGet env QueryRandom).
  - intros d. effects.
Qed.

Lemma effect_variant_getSectionsForPage pageId :
  effect 0 (Part001.getSectionsForPage env pageId).
Proof.
  unfold Part001.getSectionsForPage. apply effect_bind.
  - exact (effect_ajaxGet env (ParseSections pageId)).
  - intros d. effects.
Qed.

Lemma effect_variant_getQuotesForSection pageId sectionIndex :
  effect 0 (Part001.getQuotesForSection env pageId sectionIndex).
Proof.
  unfold Part001.getQuotesForSection. apply effect_bind.
  - exact (effect_ajaxGet env (ParseSection pageId sectionIndex)).
  - intros d. effects.
Qed.

Lemma effect_variant_attempt : effect 1 (Part001.attempt env).
Proof.
  unfold Part001.attempt. apply effect_bind.
  - apply effect_variant_getRandomPage.
  - intros pageId. apply effect_bind; [apply effect_variant_getSectionsForPage |].
    intros d. apply effect_bind.
    + unfold Part001.randomSection. effects.
    + intros i. apply effect_bind; [apply effect_variant_getQuotesForSection |].
      intros q. apply effect_bind.
      * unfold Part001.chooseQuote, Part001.randomQuote. effects.
      * intros c. apply effect_checkQuote.
Qed.

Lemma variant_mainSequence_retrying fuel numRetry :
  Part001.mainSequence env fuel numRetry
  = retrying Part001.RETRY_LIMIT (Part001.attempt env) fuel numRetry.
Proof.
  revert numRetry. induction fuel as [| fuel IH]; intros numRetry; cbn.
  - reflexivity.
  - rewrite IH. reflexivity.
Qed.

End VariantPipeline.

(** ** The validator against the specification *)

Lemma setter_then_validate (set : M unit) (st st1 : state) (s : jsstring) :
  set st = (Return tt, st1) ->
  exists b st',
    (set ;;; RandomWikiquote.isQuoteValid (JStr s)) st = (Return b, st')
    /\ (b = true <-> withinThresholds st1 s).
Proof.
  intros E. destruct (isQuoteValid_run (JStr s) st1) as (b & st' & R & _ & I).
  exists b, st'. split.
  - unfold bind. rewrite E. exact R.
  - rewrite I. split.
    + intros (s' & Es & H). injection Es as <-. exact H.
    + intros H. exists s. split; [reflexivity | exact H].
Qed.

(** C2. For every candidate string, [isQuoteValid] answers true exactly when
    the length of the string lies between [minLength] and [maxLength] and its
    digit ratio is at most [numericLimit], with the values the three
    variables have when it is called: a call of a setter just before the
    validation decides the answer.  [checkQuote] of the variant accepts under
    the same condition.  The empty string is included: its digit ratio is
    0/0, which is NaN, and NaN is at most nothing. *)
Theorem C2_validate_iff_within_live_thresholds (st : state) (s : jsstring) :
  (exists b st',
      RandomWikiquote.isQuoteValid (JStr s) st = (Return b, st')
      /\ (b = true <-> withinThresholds st s))
  /\ (forall min, exists b st',
         (setMinLength min ;;; RandomWikiquote.isQuoteValid (JStr s)) st
         = (Return b, st')
         /\ (b = true <->
             (min <= Z.of_nat (List.length s) <= maxLength st
              /\ num_le (digitRatio s) (numericLimit st))))
  /\ (forall max, exists b st',
         (setMaxLength max ;;; RandomWikiquote.isQuoteValid (JStr s)) st
         = (Return b, st')
         /\ (b = true <->
             (minLength st <= Z.of_nat (List.length s) <= max
              /\ num_le (digitRatio s) (numericLimit st))))
  /\ (forall percentage, exists b st',
         (setNumericLimit percentage ;;; RandomWikiquote.isQuoteValid (JStr s)) st
         = (Return b, st')
         /\ (b = true <->
             (minLength st <= Z.of_nat (List.length s) <= maxLength st
              /\ num_le (digitRatio s) percentage)))
  /\ (forall t,
         (exists st', Part001.checkQuote (mkQuoteResult t (JStr s)) st
                      = (Return (mkQuoteResult t (JStr s)), st'))
         <-> withinThresholds st s).
Proof.
  split; [| split; [| split; [| split]]].
  - destruct (isQuoteValid_run (JStr s) st) as (b & st' & R & _ & I).
    exists b, st'. split; [exact R |]. rewrite I. split.
    + intros (s' & Es & H). injection Es as <-. exact H.
    + intros H. exists s. split; [reflexivity | exact H].
  - intros min. exact (setter_then_validate (setMinLength min) st _ s eq_refl).
  - intros max. exact (setter_then_validate (setMaxLength max) st _ s eq_refl).
  - intros p. exact (setter_then_validate (setNumericLimit p) st _ s eq_refl).
  - intros t. pose proof (checkQuote_run (mkQuoteResult t (JStr s)) st) as H.
    destruct (Part001.checkQuote (mkQuoteResult t (JStr s)) st) as [[r | r | |] st1];
      [| | contradiction | contradiction].
    + destruct H as (-> & (s' & E & W) & _). cbn in E. injection E as <-.
      split; [intros _; exact W | intros _; exists st1; reflexivity].
    + destruct H as (N & _). split.
      * intros (st' & E). discriminate.
      * intros W. exfalso. apply N. exists s. split; [reflexivity | exact W].
Qed.

(** C8. On the empty string, on null and on undefined [isQuoteValid] returns
    false whatever the three thresholds are, also when [minLength] is zero or
    negative; on every value it returns a boolean, never throws, and leaves
    the configuration, the requests, the random draws and the console as they
    were. *)
Theorem C8_validate_rejects_empty_and_absent (st : state) :
  RandomWikiquote.isQuoteValid (JStr []) st = (Return false, st)
  /\ RandomWikiquote.isQuoteValid JNull st = (Return false, st)
  /\ RandomWikiquote.isQuoteValid JUndefined st = (Return false, st)
  /\ (forall v, exists b st',
         RandomWikiquote.isQuoteValid v st = (Return b, st')
         /\ sameEffects st st').
Proof.
  repeat split; try reflexivity.
  intros v. destruct (isQuoteValid_run v st) as (b & st' & R & F & _).
  exists b, st'. split; assumption.
Qed.

(** C10. Every division that [isQuoteValid] and [checkQuote] evaluate has a
    positive divisor, so that its value is the exact quotient: a candidate
    that is the empty string, null or undefined is answered before its length
    is read, with no division at all, and a candidate that gets past the test
    is a string with at least one code unit, whose length is the divisor. *)
Theorem C10_division_has_positive_divisor (v : jsval) (st : state) :
  (exists l,
      divisions (snd (RandomWikiquote.isQuoteValid v st)) = divisions st ++ l
      /\ Forall (fun nd => (0 < snd nd)%nat
                           /\ divide (fst nd) (snd nd)
                              = Fin (Z.of_nat (fst nd) # Pos.of_nat (snd nd))) l
      /\ l = match v with
             | JStr (c :: s) => [(countDigits (c :: s), List.length (c :: s))]
             | _ => []
             end)
  /\ (forall t, exists l,
         divisions (snd (Part001.checkQuote (mkQuoteResult t v) st))
         = divisions st ++ l
         /\ Forall (fun nd => (0 < snd nd)%nat
                              /\ divide (fst nd) (snd nd)
                                 = Fin (Z.of_nat (fst nd) # Pos.of_nat (snd nd))) l
         /\ l = match v with
                | JStr (c :: s) => [(countDigits (c :: s), List.length (c :: s))]
                | _ => []
                end)
  /\ (if truthy v then True
      else RandomWikiquote.isQuoteValid v st = (Return false, st)
           /\ forall t, Part001.checkQuote (mkQuoteResult t v) st
                        = (Reject (Message "No quote found"), st)).
Proof.
  destruct v as [| | [| c s]].
  1-3: split; [| split]; [ exists []; rewrite app_nil_r; repeat split; constructor
                         | intros t; exists []; rewrite app_nil_r;
                           repeat split; constructor
                         | split; [reflexivity | intros t; reflexivity] ].
  split; [| split; [| exact I]].
  - eexists. rewrite isQuoteValid_string. cbn [snd divisions].
    split; [reflexivity |]. split; [| reflexivity].
    constructor; [| constructor]. cbn [fst snd List.length]. split; [lia | reflexivity].
  - intros t. eexists. split; [| split; [| reflexivity]].
    + unfold Part001.checkQuote. cbn [quote truthy negb].
      unfold bind, length_of, digits_of, ret, get. rewrite quotient_run.
      cbn [minLength maxLength numericLimit].
      destruct (Z.of_nat (List.length (c :: s)) <? minLength st);
        [| destruct (maxLength st <? Z.of_nat (List.length (c :: s)));
           [| destruct (num_gtb _ _)]]; reflexivity.
    + constructor; [| constructor]. cbn [fst snd List.length].
      split; [lia | reflexivity].
Qed.

(** ** Section selection *)

Lemma jsstring_eqb_eq a b : jsstring_eqb a b = true <-> a = b.
Proof.
  unfold jsstring_eqb. destruct (list_eq_dec N.eq_dec a b); split; congruence.
Qed.

Lemma split_not_nil sep s : split sep s <> [].
Proof.
  destruct s as [| c t]; cbn; [discriminate |].
  destruct (c =? sep)%N; [discriminate |].
  destruct (split sep t); discriminate.
Qed.

(** The test of the loop, in the words of the specification: the dotted
    number has at least two components and the first one is "1". *)
Lemma isSubsectionOfFirst_components s :
  isSubsectionOfFirst s = true
  <-> exists rest, rest <> [] /\ split 46%N (number s) = lit "1" :: rest.
Proof.
  unfold isSubsectionOfFirst.
  destruct (split 46%N (number s)) as [| first rest]; cbn [List.length].
  - split; [rewrite andb_false_r; discriminate | intros (r & _ & E); discriminate].
  - rewrite andb_true_iff, Nat.ltb_lt, jsstring_eqb_eq. split.
    + intros [L ->]. exists rest. split; [| reflexivity].
      destruct rest; [cbn in L; lia | discriminate].
    + intros (r & N & E). injection E as -> ->.
      split; [| reflexivity]. destruct r; [contradiction | cbn; lia].
Qed.

(** The same test on the string: the number starts with "1." *)
Lemma isSubsectionOfFirst_prefix s :
  isSubsectionOfFirst s = true <-> exists tail, number s = lit "1." ++ tail.
Proof.
  rewrite isSubsectionOfFirst_components. split.
  - intros (rest & N & E). destruct (number s) as [| c t]; cbn in E.
    + discriminate.
    + destruct (c =? 46)%N eqn:C; [discriminate |].
      pose proof (split_not_nil 46%N t) as Ht.
      destruct (split 46%N t) as [| w ws] eqn:St; [contradiction |].
      change (lit "1") with [49%N] in E.
      injection E as Ec Ew Ews. subst c w ws.
      destruct t as [| c' t']; cbn in St.
      * injection St as <-. contradiction.
      * destruct (c' =? 46)%N eqn:C'.
        -- apply N.eqb_eq in C'. subst c'. exists t'. reflexivity.
        -- destruct (split 46%N t'); discriminate.
  - intros (tail & ->). cbn.
    pose proof (split_not_nil 46%N tail) as Ht.
    exists (split 46%N tail). split; [exact Ht | reflexivity].
Qed.

Lemma collectSections_from (secs : list section) (acc : list jsstring) :
  fold_left (fun sectionArray s =>
               if isSubsectionOfFirst s then sectionArray ++ [index s]
               else sectionArray) secs acc
  = acc ++ map index (filter isSubsectionOfFirst secs).
Proof.
  revert acc. induction secs as [| s rest IH]; intros acc; cbn.
  - rewrite app_nil_r. reflexivity.
  - rewrite IH. destruct (isSubsectionOfFirst s); cbn.
    + rewrite <- app_assoc. reflexivity.
    + reflexivity.
Qed.

Lemma collectSections_filter secs :
  collectSections secs = map index (filter isSubsectionOfFirst secs).
Proof. unfold collectSections. rewrite collectSections_from. reflexivity. Qed.

(** C3. [getSectionsForPage] resolves with the indexes of exactly the
    sections whose dotted number has at least two components and "1" as the
    first one, in the order of the outline, or with the one index "1" when
    there is no such section; the list it resolves with is never empty.  For
    the numbers 1, 1.1, 1.2, 2, 2.1 these are the indexes of the sections
    numbered 1.1 and 1.2, and for 1, 2, 3 the list is ["1"]. *)
Theorem C3_sections_are_subsections_of_first_or_fallback
  (env : environment) (pageId : Z) (st : state) :
  match respond env (List.length (requests st)) (ParseSections pageId) with
  | Responds (Outline parse) =>
      RandomWikiquote.getSectionsForPage env pageId st
      = (Return (mkSectionsResult pageId (outline_title parse)
                   match map index (filter isSubsectionOfFirst (sections parse)) with
                   | [] => [lit "1"]
                   | found => found
                   end),
         requested (ParseSections pageId) st)
  | _ => True
  end
  /\ match RandomWikiquote.getSectionsForPage env pageId st with
     | (Return result, _) => sr_sections result <> []
     | _ => True
     end
  /\ (forall s,
         isSubsectionOfFirst s = true
         <-> exists rest, rest <> [] /\ split 46%N (number s) = lit "1" :: rest)
  /\ (forall i1 i2 i3 i4 i5 title,
         fst (RandomWikiquote.getSectionsForPage
                (mkEnvironment
                   (fun _ _ =>
                      Responds (Outline (mkOutline title
                        [mkSection i1 (lit "1"); mkSection i2 (lit "1.1");
                         mkSection i3 (lit "1.2"); mkSection i4 (lit "2");
                         mkSection i5 (lit "2.1")])))
                   (Math_random env))
                pageId st)
         = Return (mkSectionsResult pageId title [i2; i3]))
  /\ (forall i1 i2 i3 title,
         fst (RandomWikiquote.getSectionsForPage
                (mkEnvironment
                   (fun _ _ =>
                      Responds (Outline (mkOutline title
                        [mkSection i1 (lit "1"); mkSection i2 (lit "2");
                         mkSection i3 (lit "3")])))
                   (Math_random env))
                pageId st)
         = Return (mkSectionsResult pageId title [lit "1"])).
Proof.
  assert (R : forall parse,
             respond env (List.length (requests st)) (ParseSections pageId)
             = Responds (Outline parse) ->
             RandomWikiquote.getSectionsForPage env pageId st
             = (Return (mkSectionsResult pageId (outline_title parse)
                          match map index (filter isSubsectionOfFirst (sections parse)) with
                          | [] => [lit "1"]
                          | found => found
                          end),
                requested (ParseSections pageId) st)).
  { intros parse E.
    unfold RandomWikiquote.getSectionsForPage, bind, ajaxGet. rewrite E.
    rewrite collectSections_filter.
    destruct (map index (filter isSubsectionOfFirst (sections parse))); reflexivity. }
  split; [| split; [| split; [| split]]].
  - destruct (respond env (List.length (requests st)) (ParseSections pageId))
      as [[id | parse | parse |] | r |]; try exact I.
    apply R. reflexivity.
  - destruct (respond env (List.length (requests st)) (ParseSections pageId))
      as [[id | parse | parse |] | r |] eqn:E.
    + unfold RandomWikiquote.getSectionsForPage, bind, ajaxGet. rewrite E. exact I.
    + rewrite (R parse eq_refl). cbn.
      destruct (map index (filter isSubsectionOfFirst (sections parse)));
        discriminate.
    + unfold RandomWikiquote.getSectionsForPage, bind, ajaxGet. rewrite E.
      cbn. discriminate.
    + unfold RandomWikiquote.getSectionsForPage, bind, ajaxGet. rewrite E. exact I.
    + unfold RandomWikiquote.getSectionsForPage, bind, ajaxGet. rewrite E. exact I.
    + unfold RandomWikiquote.getSectionsForPage, bind, ajaxGet. rewrite E. exact I.
  - exact isSubsectionOfFirst_components.
  - intros. reflexivity.
  - intros. reflexivity.
Qed.

(** ** The random choice *)

Lemma randomNum_range (r : Q) (n : nat) :
  (0 <= r)%Q -> (r < 1)%Q -> (0 < n)%nat ->
  0 <= Qfloor (r * inject_Z (Z.of_nat n)) < Z.of_nat n.
Proof.
  intros H0 H1 Hn.
  assert (Hpos : (0 < inject_Z (Z.of_nat n))%Q).
  { change 0%Q with (inject_Z 0). rewrite <- Zlt_Qlt. lia. }
  split.
  - rewrite <- (Qfloor_Z 0). apply Qfloor_resp_le.
    change (inject_Z 0) with 0%Q. apply Qmult_le_0_compat; [exact H0 |].
    apply Qlt_le_weak. exact Hpos.
  - rewrite Zlt_Qlt.
    apply Qle_lt_trans with (y := (r * inject_Z (Z.of_nat n))%Q);
      [apply Qfloor_le |].
    rewrite <- (Qmult_1_l (inject_Z (Z.of_nat n))) at 2.
    apply Qmult_lt_compat_r; assumption.
Qed.


Lemma at_index_in_range (array : list jsstring) (i : Z) :
  0 <= i < Z.of_nat (List.length array) ->
  exists s, at_index array i = JStr s /\ In s array.
Proof.
  intros [L U]. unfold at_index.
  destruct (i <? 0) eqn:N; [apply Z.ltb_lt in N; lia |].
  destruct (nth_error array (Z.to_nat i)) as [s |] eqn:E.
  - exists s. split; [reflexivity | eapply nth_error_In; exact E].
  - apply nth_error_None in E. lia.
Qed.

Section PrimaryChoice.

Variable env : environment.
Hypothesis random_in_unit_interval : unitInterval env.

(** [chooseQuote] on a list that is not empty returns one of its strings,
    the one at the index the draw designates. *)
Lemma chooseQuote_run result st :
  quotes result <> [] ->
  exists s,
    In s (quotes result)
    /\ at_index (quotes result)
         (Qfloor (Math_random env (draws st)
                  * inject_Z (Z.of_nat (List.length (quotes result))))) = JStr s
    /\ RandomWikiquote.chooseQuote env result st
       = (Return (mkQuoteResult (titles result) (JStr s)),
          mkState (minLength st) (maxLength st) (numericLimit st) (requests st)
            (S (draws st)) (console st) (divisions st)).
Proof.
  intros N.
  destruct (random_in_unit_interval (draws st)) as [H0 H1].
  destruct (at_index_in_range (quotes result)
              (Qfloor (Math_random env (draws st)
                       * inject_Z (Z.of_nat (List.length (quotes result))))))
    as (s & E & I).
  { apply randomNum_range; try assumption.
    destruct (quotes result); [contradiction | cbn; lia]. }
  exists s. split; [exact I |]. split; [exact E |].
  unfold RandomWikiquote.chooseQuote, RandomWikiquote.randomQuote, bind,
    randomNum, ret.
  rewrite E. reflexivity.
Qed.

(** A pass of the chain that returns, returns a string that passed the
    test at extraction. *)
Lemma attempt_Return st r st' :
  RandomWikiquote.attempt env st = (Return r, st') ->
  exists s, quote r = JStr s /\ withinThresholds st s.
Proof.
  intros H. unfold RandomWikiquote.attempt in H.
  apply bind_Return in H. destruct H as (pageId & st1 & E1 & H).
  apply bind_Return in H. destruct H as (d & st2 & E2 & H).
  apply bind_Return in H. destruct H as (i & st3 & E3 & H).
  apply bind_Return in H. destruct H as (q & st4 & E4 & H).
  pose proof (effect_getRandomPage env st) as F1. rewrite E1 in F1.
  pose proof (effect_getSectionsForPage env pageId st1) as F2. rewrite E2 in F2.
  assert (F3 : frame 0 st2 st3).
  { assert (F : effect 0 (RandomWikiquote.randomSection env (sr_sections d)))
      by (unfold RandomWikiquote.randomSection; effects).
    specialize (F st2). rewrite E3 in F. exact F. }
  apply getQuotesForSection_Return in E4.
  destruct E4 as (parse & _ & _ & Eq & Nq & _).
  destruct (chooseQuote_run q st4 Nq) as (s & I & _ & C).
  rewrite C in H. injection H as <- <-. exists s. split; [reflexivity |].
  rewrite Eq in I. apply filter_In in I. destruct I as [_ W].
  apply withinThresholdsb_iff in W.
  apply withinThresholds_sameConfig with (st := st3); [| exact W].
  destruct F1 as (C1 & _), F2 as (C2 & _), F3 as (C3 & _).
  destruct C1 as (a1 & b1 & c1), C2 as (a2 & b2 & c2), C3 as (a3 & b3 & c3).
  repeat split; congruence.
Qed.

End PrimaryChoice.

(** A pass of the variant's chain that returns, returns a string that
    [checkQuote] accepted. *)
Lemma variant_attempt_Return env st r st' :
  Part001.attempt env st = (Return r, st') ->
  exists s, quote r = JStr s /\ withinThresholds st s.
Proof.
  intros H. unfold Part001.attempt in H.
  apply bind_Return in H. destruct H as (pageId & st1 & E1 & H).
  apply bind_Return in H. destruct H as (d & st2 & E2 & H).
  apply bind_Return in H. destruct H as (i & st3 & E3 & H).
  apply bind_Return in H. destruct H as (q & st4 & E4 & H).
  apply bind_Return in H. destruct H as (c & st5 & E5 & H).
  pose proof (effect_variant_getRandomPage env st) as F1. rewrite E1 in F1.
  pose proof (effect_variant_getSectionsForPage env pageId st1) as F2.
  rewrite E2 in F2.
  assert (F3 : frame 0 st2 st3).
  { assert (F : effect 0 (Part001.randomSection env (sr_sections d)))
      by (unfold Part001.randomSection; effects).
    specialize (F st2). rewrite E3 in F. exact F. }
  pose proof (effect_variant_getQuotesForSection env (sr_pageId d) i st3) as F4.
  rewrite E4 in F4.
  assert (F5 : frame 0 st4 st5).
  { assert (F : effect 0 (Part001.chooseQuote env q))
      by (unfold Part001.chooseQuote, Part001.randomQuote; effects).
    specialize (F st4). rewrite E5 in F. exact F. }
  pose proof (checkQuote_run c st5) as K. rewrite H in K.
  destruct K as (-> & (s & Es & W) & _).
  exists s. split; [exact Es |].
  apply withinThresholds_sameConfig with (st := st5); [| exact W].
  destruct F1 as (C1 & _), F2 as (C2 & _), F3 as (C3 & _), F4 as (C4 & _),
    F5 as (C5 & _).
  destruct C1 as (a1 & b1 & c1), C2 as (a2 & b2 & c2), C3 as (a3 & b3 & c3),
    C4 as (a4 & b4 & c4), C5 as (a5 & b5 & c5).
  repeat split; congruence.
Qed.

(** ** The orchestrator *)

(** C1. When [getRandomQuote] resolves, in the primary implementation as in
    the variant, the quote of the result is a string whose length lies
    between [minLength] and [maxLength] and whose digit ratio is at most
    [numericLimit], for the values of the three variables at that moment,
    which are the values they had when the candidate was tested. *)
Theorem C1_resolved_quote_within_thresholds
  (env : environment) (st : state) (r : QuoteResult) (st' : state) :
  unitInterval env ->
  RandomWikiquote.getRandomQuote env st = (Return r, st')
  \/ Part001.getRandomQuote env st = (Return r, st') ->
  exists s, quote r = JStr s /\ withinThresholds st' s /\ sameConfig st st'.
Proof.
  intros Hr [H | H].
  - unfold RandomWikiquote.getRandomQuote in H.
    rewrite mainSequence_retrying in H.
    pose proof (retrying_run RandomWikiquote.RETRY_LIMIT
                  (RandomWikiquote.attempt env) (effect_attempt env)
                  RandomWikiquote.RETRY_LIMIT 0 st) as R.
    rewrite H in R.
    destruct R as (j & st0 & _ & _ & _ & C0 & E);
      [unfold RandomWikiquote.RETRY_LIMIT; lia | lia |].
    destruct (attempt_Return env Hr st0 r st' E) as (s & Es & W).
    pose proof (effect_attempt env st0) as F. rewrite E in F.
    destruct F as (C1 & _).
    exists s. split; [exact Es |]. split.
    + eapply withinThresholds_sameConfig; eassumption.
    + eapply sameConfig_trans; eassumption.
  - unfold Part001.getRandomQuote in H.
    rewrite variant_mainSequence_retrying in H.
    pose proof (retrying_run Part001.RETRY_LIMIT
                  (Part001.attempt env) (effect_variant_attempt env)
                  Part001.RETRY_LIMIT 0 st) as R.
    rewrite H in R.
    destruct R as (j & st0 & _ & _ & _ & C0 & E);
      [unfold Part001.RETRY_LIMIT; lia | lia |].
    destruct (variant_attempt_Return env st0 r st' E) as (s & Es & W).
    pose proof (effect_variant_attempt env st0) as F. rewrite E in F.
    destruct F as (C1 & _).
    exists s. split; [exact Es |]. split.
    + eapply withinThresholds_sameConfig; eassumption.
    + eapply sameConfig_trans; eassumption.
Qed.

Lemma hamlet_unitInterval : unitInterval hamlet.
Proof. intros n. split; cbn; [discriminate | reflexivity]. Qed.

Lemma C1_resolved_quote_within_thresholds_witness :
  unitInterval hamlet
  /\ RandomWikiquote.getRandomQuote hamlet initial
     = (Return (mkQuoteResult (lit "Hamlet")
                  (JStr (lit "To be or not to be, that is the question."))),
        snd (RandomWikiquote.getRandomQuote hamlet initial))
  /\ exists s,
       JStr (lit "To be or not to be, that is the question.") = JStr s
       /\ withinThresholds (snd (RandomWikiquote.getRandomQuote hamlet initial)) s
       /\ sameConfig initial (snd (RandomWikiquote.getRandomQuote hamlet initial)).
Proof.
  split; [exact hamlet_unitInterval |].
  split; [vm_compute; reflexivity |].
  apply (C1_resolved_quote_within_thresholds hamlet initial
           (mkQuoteResult (lit "Hamlet")
              (JStr (lit "To be or not to be, that is the question.")))
           (snd (RandomWikiquote.getRandomQuote hamlet initial))
           hamlet_unitInterval).
  left. vm_compute. reflexivity.
Defined.

(** C9. In the primary implementation the list [getQuotesForSection]
    resolves with is the list of the extracted strings that pass
    [isQuoteValid] under the configuration of that moment; when no extracted
    string passes, the call is rejected; so a list it resolves with is never
    empty, all its strings are within the thresholds, and the string that
    [chooseQuote] then draws from it is one of them. *)
Theorem C9_extraction_resolves_with_valid_quotes_only
  (env : environment) (pageId : Z) (sectionIndex : jsval) (st : state) :
  unitInterval env ->
  match respond env (List.length (requests st)) (ParseSection pageId sectionIndex) with
  | Responds (Rendering parse) =>
      exists st',
        RandomWikiquote.getQuotesForSection env pageId sectionIndex st
        = (match filter (withinThresholdsb st)
                   (map RandomWikiquote.plainQuote (querySelectorAll (text parse))) with
           | [] => Reject (Message "Section has no valid quote.")
           | q :: qs => Return (mkQuotesResult (rendering_title parse) (q :: qs))
           end, st')
  | _ => True
  end
  /\ match RandomWikiquote.getQuotesForSection env pageId sectionIndex st with
     | (Return result, st') =>
         quotes result <> []
         /\ Forall (withinThresholds st') (quotes result)
         /\ sameConfig st st'
         /\ exists s,
              In s (quotes result)
              /\ withinThresholds st' s
              /\ fst (RandomWikiquote.chooseQuote env result st')
                 = Return (mkQuoteResult (titles result) (JStr s))
     | _ => True
     end.
Proof.
  intros Hr. split.
  - destruct (respond env (List.length (requests st))
                (ParseSection pageId sectionIndex)) as [[id | o | parse |] | r |] eqn:R;
      try exact I.
    destruct (getQuotesForSection_rendered env _ _ _ _ R) as (st' & E & _).
    exists st'. exact E.
  - destruct (RandomWikiquote.getQuotesForSection env pageId sectionIndex st)
      as [[result | r | |] st'] eqn:E; try exact I.
    apply getQuotesForSection_Return in E.
    destruct E as (parse & _ & _ & Eq & Nq & (C & _)).
    assert (C' : sameConfig st st') by exact C.
    assert (A : Forall (withinThresholds st') (quotes result)).
    { rewrite Eq. apply Forall_forall. intros s I. apply filter_In in I.
      destruct I as [_ W]. apply withinThresholdsb_iff in W.
      eapply withinThresholds_sameConfig; eassumption. }
    split; [exact Nq |]. split; [exact A |]. split; [exact C' |].
    destruct (chooseQuote_run env Hr result st' Nq) as (s & I & _ & K).
    exists s. split; [exact I |]. split.
    + rewrite Forall_forall in A. apply A. exact I.
    + rewrite K. reflexivity.
Qed.

Lemma C9_extraction_resolves_with_valid_quotes_only_witness :
  unitInterval hamlet
  /\ match RandomWikiquote.getQuotesForSection hamlet 42 (JStr (lit "2")) initial with
     | (Return result, st') =>
         quotes result <> []
         /\ Forall (withinThresholds st') (quotes result)
         /\ sameConfig initial st'
         /\ exists s,
              In s (quotes result)
              /\ withinThresholds st' s
              /\ fst (RandomWikiquote.chooseQuote hamlet result st')
                 = Return (mkQuoteResult (titles result) (JStr s))
     | _ => True
     end.
Proof.
  split; [exact hamlet_unitInterval |].
  exact (proj2 (C9_extraction_resolves_with_valid_quotes_only
                  hamlet 42 (JStr (lit "2")) initial hamlet_unitInterval)).
Defined.


(** A computation hangs only on a request that is not answered. *)
Lemma hangsOnly_ret {A} P (a : A) : hangsOnly P (ret a).
Proof. intros st st' H. discriminate. Qed.

Lemma hangsOnly_reject {A} P r : hangsOnly P (@reject A r).
Proof. intros st st' H. discriminate. Qed.

Lemma hangsOnly_get {A} P (f : state -> A) : hangsOnly P (get f).
Proof. intros st st' H. discriminate. Qed.

Lemma hangsOnly_quotient P n d : hangsOnly P (quotient n d).
Proof. intros st st' H. discriminate. Qed.

Lemma hangsOnly_randomNum P env max : hangsOnly P (randomNum env max).
Proof. intros st st' H. discriminate. Qed.

Lemma hangsOnly_length_of P v : hangsOnly P (length_of v).
Proof. intros st st' H. destruct v; discriminate. Qed.

Lemma hangsOnly_digits_of P v : hangsOnly P (digits_of v).
Proof. intros st st' H. destruct v; discriminate. Qed.

Lemma hangsOnly_bind {A B} P (m : M A) (f : A -> M B) :
  hangsOnly P m -> (forall a, hangsOnly P (f a)) -> hangsOnly P (bind m f).
Proof.
  intros Hm Hf st st' H. unfold bind in H.
  destruct (m st) as [[a | r | |] st1] eqn:E; try discriminate.
  - exact (Hf a st1 st' H).
  - injection H as <-. exact (Hm st st1 E).
Qed.

Lemma hangsOnly_catch {A} P (m : M A) (h : reason -> M A) :
  hangsOnly P m -> (forall r, hangsOnly P (h r)) -> hangsOnly P (catch m h).
Proof.
  intros Hm Hh st st' H. unfold catch in H.
  destruct (m st) as [[a | r | |] st1] eqn:E; try discriminate.
  - exact (Hh r st1 st' H).
  - injection H as <-. exact (Hm st st1 E).
Qed.

Lemma hangsOnly_for_of {A B} P (xs : list A) (body : A -> B -> M B) :
  (forall x acc, hangsOnly P (body x acc)) ->
  forall acc, hangsOnly P (for_of xs body acc).
Proof.
  intros Hb. induction xs as [| x rest IH]; intros acc; cbn [for_of].
  - apply hangsOnly_ret.
  - apply hangsOnly_bind; [apply Hb | intros a; apply IH].
Qed.

Lemma hangsOnly_ajaxGet env url : hangsOnly (unanswered env) (ajaxGet env url).
Proof.
  intros st st' H. unfold ajaxGet in H.
  destruct (respond env (List.length (requests st)) url) eqn:R; try discriminate.
  injection H as <-. exists (requests st), url. split; [reflexivity | exact R].
Qed.

Lemma hangsOnly_isQuoteValid P v : hangsOnly P (RandomWikiquote.isQuoteValid v).
Proof.
  intros st st' H. destruct (isQuoteValid_run v st) as (b & st1 & E & _).
  rewrite E in H. discriminate.
Qed.

Lemma hangsOnly_checkQuote P chosen : hangsOnly P (Part001.checkQuote chosen).
Proof.
  intros st st' H. pose proof (checkQuote_run chosen st) as K.
  rewrite H in K. contradiction.
Qed.

Ltac hangs :=
  repeat first
    [ apply hangsOnly_ret | apply hangsOnly_reject | apply hangsOnly_get
    | apply hangsOnly_quotient | apply hangsOnly_length_of
    | apply hangsOnly_digits_of | apply hangsOnly_randomNum
    | apply hangsOnly_isQuoteValid | apply hangsOnly_checkQuote
    | apply hangsOnly_ajaxGet
    | apply hangsOnly_for_of; intros ? ?
    | apply hangsOnly_bind; [| intros ?]
    | match goal with
      | |- hangsOnly _ (match ?x with _ => _ end) => destruct x
      end ].

Lemma hangsOnly_attempt env :
  hangsOnly (unanswered env) (RandomWikiquote.attempt env).
Proof.
  unfold RandomWikiquote.attempt, RandomWikiquote.getRandomPage,
    RandomWikiquote.getSectionsForPage, RandomWikiquote.randomSection,
    RandomWikiquote.getQuotesForSection, RandomWikiquote.chooseQuote,
    RandomWikiquote.randomQuote.
  hangs. all: unfold RandomWikiquote.pushIfValid; hangs.
Qed.

Lemma hangsOnly_variant_attempt env :
  hangsOnly (unanswered env) (Part001.attempt env).
Proof.
  unfold Part001.attempt, Part001.getRandomPage, Part001.getSectionsForPage,
    Part001.randomSection, Part001.getQuotesForSection, Part001.chooseQuote,
    Part001.randomQuote.
  hangs.
Qed.

Lemma answered_not_unanswered env st : answered env -> ~ unanswered env st.
Proof. intros A (earlier & url & _ & U). exact (A _ _ U). Qed.





(** ** White space *)

Lemma replaceSpaces_true_nonspace s :
  startsWithSpace s = false -> replaceSpaces true s = replaceSpaces false s.
Proof.
  destruct s as [| c t]; cbn; [reflexivity |]. intros ->. reflexivity.
Qed.

(** Inside a match, the rest of the run is dropped. *)
Lemma replaceSpaces_rest_of_run ws b :
  Forall (fun c => isSpace c = true) ws ->
  startsWithSpace b = false ->
  replaceSpaces true (ws ++ b) = replaceSpaces false b.
Proof.
  intros Hws Hb. induction Hws as [| c ws Hc _ IH]; cbn [app].
  - apply replaceSpaces_true_nonspace. exact Hb.
  - cbn [replaceSpaces]. rewrite Hc. exact IH.
Qed.

Lemma startsWithSpace_app a x :
  a <> [] -> startsWithSpace (a ++ x) = startsWithSpace a.
Proof. destruct a; [contradiction | reflexivity]. Qed.

Lemma endsWithSpace_cons c a :
  a <> [] -> endsWithSpace (c :: a) = endsWithSpace a.
Proof.
  intros N. unfold endsWithSpace. cbn [rev]. apply startsWithSpace_app.
  intros E. apply N. rewrite <- (rev_involutive a), E. reflexivity.
Qed.

(** After a prefix that does not end with white space, the replacement
    starts afresh. *)
Lemma replaceSpaces_after_prefix a x :
  a <> [] -> endsWithSpace a = false ->
  forall p, replaceSpaces p (a ++ x) = replaceSpaces p a ++ replaceSpaces false x.
Proof.
  induction a as [| c a IH]; intros N E p; [contradiction |].
  destruct a as [| d a'].
  - cbn in E. cbn. rewrite E. reflexivity.
  - assert (N' : d :: a' <> []) by discriminate.
    rewrite endsWithSpace_cons in E by exact N'.
    specialize (IH N' E).
    change ((c :: d :: a') ++ x) with (c :: ((d :: a') ++ x)).
    cbn [replaceSpaces].
    rewrite (startsWithSpace_app (d :: a') x N').
    destruct (isSpace c); [destruct p; [| destruct (startsWithSpace (d :: a'))] |];
      rewrite IH; reflexivity.
Qed.

(** What the replacement does to a maximal run of white space: a run of two
    or more characters becomes one space, a single white space character
    stays as it is. *)
Lemma replaceSpaces_run a ws b :
  endsWithSpace a = false ->
  ws <> [] -> Forall (fun c => isSpace c = true) ws ->
  startsWithSpace b = false ->
  replaceSpaces false (a ++ ws ++ b)
  = replaceSpaces false a
    ++ (if (2 <=? List.length ws)%nat then [SPACE] else ws)
    ++ replaceSpaces false b.
Proof.
  intros Ha Nws Hws Hb.
  assert (R : replaceSpaces false (ws ++ b)
              = (if (2 <=? List.length ws)%nat then [SPACE] else ws)
                ++ replaceSpaces false b).
  { destruct ws as [| c1 [| c2 ws']]; [contradiction | |].
    - inversion Hws as [| ? ? Hc1 _]; subst. cbn. rewrite Hc1, Hb.
      rewrite replaceSpaces_true_nonspace by exact Hb. reflexivity.
    - inversion Hws as [| ? ? Hc1 Hrest]; subst.
      inversion Hrest as [| ? ? Hc2 Hws']; subst.
      change ((c1 :: c2 :: ws') ++ b) with (c1 :: ((c2 :: ws') ++ b)).
      cbn [replaceSpaces List.length Nat.leb app]. rewrite Hc1.
      cbn [startsWithSpace app]. rewrite Hc2.
      rewrite (replaceSpaces_rest_of_run ws' b Hws' Hb). reflexivity. }
  destruct a as [| c a'].
  - cbn [app replaceSpaces]. exact R.
  - rewrite replaceSpaces_after_prefix by (try discriminate; exact Ha).
    rewrite R. reflexivity.
Qed.

Lemma replaceSpaces_shape s :
  forall p,
    adjacentSpaces (replaceSpaces p s) = false
    /\ (p = true -> startsWithSpace (replaceSpaces p s) = false)
    /\ (startsWithSpace s = false -> startsWithSpace (replaceSpaces p s) = false).
Proof.
  induction s as [| c t IH]; intros p; cbn [replaceSpaces].
  - repeat split.
  - destruct (isSpace c) eqn:C.
    + destruct p.
      * destruct (IH true) as (A & B & _).
        split; [exact A |]. split; [intros _; apply B; reflexivity |].
        cbn. rewrite C. discriminate.
      * destruct (IH true) as (A & B & D).
        destruct (startsWithSpace t) eqn:S.
        -- split; [| split; [discriminate | cbn; rewrite C; discriminate]].
           cbn [adjacentSpaces]. rewrite (B eq_refl), andb_false_r. exact A.
        -- split; [| split; [discriminate | cbn; rewrite C; discriminate]].
           cbn [adjacentSpaces]. rewrite (D eq_refl), andb_false_r. exact A.
    + destruct (IH false) as (A & _ & _).
      split; [| split; intros _; cbn; exact C].
      cbn [adjacentSpaces]. rewrite C. exact A.
Qed.

Lemma trimStart_suffix s : exists a, s = a ++ trimStart s.
Proof.
  induction s as [| c t [a IH]]; cbn.
  - exists []. reflexivity.
  - destruct (isSpace c).
    + exists (c :: a). cbn. rewrite <- IH. reflexivity.
    + exists []. reflexivity.
Qed.

Lemma trimStart_starts s : startsWithSpace (trimStart s) = false.
Proof.
  induction s as [| c t IH]; cbn; [reflexivity |].
  destruct (isSpace c) eqn:C; [exact IH | cbn; exact C].
Qed.

Lemma trimEnd_prefix s : exists b, s = trimEnd s ++ b.
Proof.
  unfold trimEnd. destruct (trimStart_suffix (rev s)) as [a E].
  exists (rev a). rewrite <- rev_app_distr, <- E, rev_involutive. reflexivity.
Qed.

Lemma adjacentSpaces_app a b :
  adjacentSpaces (a ++ b) = false ->
  adjacentSpaces a = false /\ adjacentSpaces b = false.
Proof.
  induction a as [| c a IH]; cbn [app adjacentSpaces]; intros H.
  - split; [reflexivity | exact H].
  - apply orb_false_iff in H. destruct H as [H1 H2].
    destruct (IH H2) as [Ha Hb]. split; [| exact Hb].
    rewrite Ha, orb_false_r.
    destruct a as [| d a']; [apply andb_false_r | exact H1].
Qed.

(** The string after [trim]: no white space at either end, and nothing new
    inside. *)
Lemma trim_shape s :
  startsWithSpace (trim s) = false
  /\ endsWithSpace (trim s) = false
  /\ (adjacentSpaces s = false -> adjacentSpaces (trim s) = false).
Proof.
  unfold trim. split; [| split].
  - destruct (trimEnd_prefix (trimStart s)) as [b E].
    pose proof (trimStart_starts s) as S. rewrite E in S.
    destruct (trimEnd (trimStart s)); [reflexivity | exact S].
  - unfold endsWithSpace, trimEnd. rewrite rev_involutive. apply trimStart_starts.
  - intros A.
    destruct (trimStart_suffix s) as [a Ea].
    destruct (trimEnd_prefix (trimStart s)) as [b Eb].
    rewrite Ea in A. apply adjacentSpaces_app in A. destruct A as [_ A].
    rewrite Eb in A. apply adjacentSpaces_app in A. apply A.
Qed.

(** ** Extraction of the text of a list item *)

(** C4, as the claim states it, fails on the code: on the markup
    [<ul><li>Hello <b>world</b> <sup>[1]</sup><ul><li>note</li></ul></li></ul>]
    the candidate is not "Hello world".  [SUP] is one of [ELEMENTS_TO_KEEP],
    so the text is "Hello world [1]" (it is kept when [minLength] lets a
    string of 15 code units pass, and with the initial thresholds the call is
    rejected, the string being shorter than 20); the variant yields the same
    text with the space that replaced the nested list still at its end; and
    the bare markup, with no [div] around the list, has no element that the
    selector matches. *)
Lemma C4_counterexample_hello_world_keeps_superscript :
  fst (RandomWikiquote.getQuotesForSection helloSite 42 (JStr (lit "2")) lenient)
  = Return (mkQuotesResult (lit "Greeting") [lit "Hello world [1]"])
  /\ lit "Hello world [1]" <> lit "Hello world"
  /\ fst (RandomWikiquote.getQuotesForSection helloSite 42 (JStr (lit "2")) initial)
     = Reject (Message "Section has no valid quote.")
  /\ fst (Part001.getQuotesForSection helloSite 42 (JStr (lit "2")) initial)
     = Return (mkQuotesResult (lit "Greeting") [lit "Hello world [1] "])
  /\ fst (RandomWikiquote.getQuotesForSection helloBare 42 (JStr (lit "2")) lenient)
     = Reject (Message "Section has no valid quote.").
Proof.
  split; [vm_compute; reflexivity |].
  split; [discriminate |].
  split; [vm_compute; reflexivity |].
  split; vm_compute; reflexivity.
Qed.

Lemma innerText_replaceUnwanted keep tag children :
  innerText (replaceUnwanted keep (Elem tag children))
  = flat_map (fun child =>
                match child with
                | Text s => s
                | Elem t _ =>
                    if existsb (String.eqb t) keep then textContent child
                    else [SPACE]
                end) children.
Proof.
  unfold innerText. cbn [replaceUnwanted textContent].
  induction children as [| child rest IH]; cbn [map flat_map]; [reflexivity |].
  rewrite IH. f_equal.
  destruct child as [s | t cs]; cbn [replaceChild]; [reflexivity |].
  destruct (existsb (String.eqb t) keep); reflexivity.
Qed.

(** C4, amended.  For a list item that the selector matches, every child
    element whose tag is not in [ELEMENTS_TO_KEEP] counts as one space and
    every other child as its text; in the text so obtained every run of two
    or more white space characters is replaced by one space (a white space
    character that stands alone is kept as it is), and the white space at
    both ends is removed: the string has no two white space characters in a
    row and none at either end.  On the example markup the string is
    "Hello world [1]"; in "  one\ntwo \t\nthree " the line feed that stands
    alone stays and the string is "one\ntwo three". *)
Theorem C4_text_of_list_item (tag : string) (children : list node) :
  RandomWikiquote.plainQuote (Elem tag children)
  = trim (replaceSpaces false
            (flat_map (fun child =>
                         match child with
                         | Text s => s
                         | Elem t _ =>
                             if existsb (String.eqb t)
                                  RandomWikiquote.ELEMENTS_TO_KEEP
                             then textContent child
                             else [SPACE]
                         end) children))
  /\ adjacentSpaces (RandomWikiquote.plainQuote (Elem tag children)) = false
  /\ startsWithSpace (RandomWikiquote.plainQuote (Elem tag children)) = false
  /\ endsWithSpace (RandomWikiquote.plainQuote (Elem tag children)) = false
  /\ (forall a ws b,
         endsWithSpace a = false ->
         ws <> [] -> Forall (fun c => isSpace c = true) ws ->
         startsWithSpace b = false ->
         replaceSpaces false (a ++ ws ++ b)
         = replaceSpaces false a
           ++ (if (2 <=? List.length ws)%nat then [SPACE] else ws)
           ++ replaceSpaces false b)
  /\ map RandomWikiquote.plainQuote (querySelectorAll (rendered helloMarkup))
     = [lit "Hello world [1]"]
  /\ RandomWikiquote.plainQuote
       (Elem "LI" [Text (lit "  one" ++ [10%N] ++ lit "two " ++ [9%N; 10%N]
                         ++ lit "three ")])
     = lit "one" ++ [10%N] ++ lit "two three".
Proof.
  assert (E : RandomWikiquote.plainQuote (Elem tag children)
              = trim (replaceSpaces false
                        (innerText (replaceUnwanted RandomWikiquote.ELEMENTS_TO_KEEP
                                      (Elem tag children)))))
    by reflexivity.
  destruct (trim_shape (replaceSpaces false
                          (innerText (replaceUnwanted RandomWikiquote.ELEMENTS_TO_KEEP
                                        (Elem tag children)))))
    as (S & T & A).
  split; [rewrite E, innerText_replaceUnwanted; reflexivity |].
  split; [rewrite E; apply A; apply replaceSpaces_shape |].
  split; [rewrite E; exact S |].
  split; [rewrite E; exact T |].
  split; [exact replaceSpaces_run |].
  split; vm_compute; reflexivity.
Qed.

Lemma C4_text_of_list_item_witness :
  endsWithSpace (lit "Hello") = false
  /\ [9%N; 10%N; 32%N] <> []
  /\ Forall (fun c => isSpace c = true) [9%N; 10%N; 32%N]
  /\ startsWithSpace (lit "world") = false
  /\ replaceSpaces false (lit "Hello" ++ [9%N; 10%N; 32%N] ++ lit "world")
     = replaceSpaces false (lit "Hello")
       ++ (if (2 <=? List.length [9%N; 10%N; 32%N])%nat then [SPACE]
           else [9%N; 10%N; 32%N])
       ++ replaceSpaces false (lit "world").
Proof.
  assert (H1 : endsWithSpace (lit "Hello") = false) by reflexivity.
  assert (H2 : [9%N; 10%N; 32%N] <> []) by discriminate.
  assert (H3 : Forall (fun c => isSpace c = true) [9%N; 10%N; 32%N])
    by (repeat constructor).
  assert (H4 : startsWithSpace (lit "world") = false) by reflexivity.
  split; [exact H1 |]. split; [exact H2 |]. split; [exact H3 |].
  split; [exact H4 |].
  destruct (C4_text_of_list_item "LI" []) as (_ & _ & _ & _ & R & _ & _).
  exact (R _ _ _ H1 H2 H3 H4).
Defined.

(** ** An extraction that finds nothing *)

Lemma at_index_nil i : at_index [] i = JUndefined.
Proof.
  unfold at_index. destruct (i <? 0); [reflexivity |].
  destruct (Z.to_nat i); reflexivity.
Qed.

(** C5, as the claim states it, fails on the primary implementation: for a
    section that exists and has no list item, and for a section none of
    whose items passes the test, [getQuotesForSection] is rejected; it does
    not resolve with an empty list. *)
Lemma C5_counterexample_empty_extraction_is_rejected :
  fst (RandomWikiquote.getQuotesForSection proseSite 42 (JStr (lit "2")) initial)
  = Reject (Message "Section has no valid quote.")
  /\ fst (RandomWikiquote.getQuotesForSection
            (alwaysRenders (lit "Years")
               (rendered [Elem "UL" [Elem "LI" [Text (lit "1997")]]]))
            42 (JStr (lit "2")) initial)
     = Reject (Message "Section has no valid quote.").
Proof. split; vm_compute; reflexivity. Qed.

(** C5, amended.  In the variant [part_001] the extraction of a section that
    exists resolves with the texts of all the matched list items, also when
    there is none: the empty list is a result, and the failure comes
    afterwards, when [checkQuote] finds no quote in what [chooseQuote] drew.
    In the primary implementation [getQuotesForSection] never resolves with
    an empty list: when no extracted string passes the test it is rejected
    with "Section has no valid quote.". *)
Theorem C5_empty_extraction
  (env : environment) (pageId : Z) (sectionIndex : jsval) (st : state) :
  match respond env (List.length (requests st)) (ParseSection pageId sectionIndex) with
  | Responds (Rendering parse) =>
      Part001.getQuotesForSection env pageId sectionIndex st
      = (Return (mkQuotesResult (rendering_title parse)
                   (map (fun quote =>
                           outerText (replaceUnwanted Part001.childrenToKeep quote))
                        (querySelectorAll (text parse)))),
         requested (ParseSection pageId sectionIndex) st)
      /\ match filter (withinThresholdsb st)
                 (map RandomWikiquote.plainQuote (querySelectorAll (text parse))) with
         | [] =>
             fst (RandomWikiquote.getQuotesForSection env pageId sectionIndex st)
             = Reject (Message "Section has no valid quote.")
         | _ => True
         end
  | _ => True
  end
  /\ match RandomWikiquote.getQuotesForSection env pageId sectionIndex st with
     | (Return result, _) => quotes result <> []
     | _ => True
     end
  /\ (forall title st1,
         fst ((chosen <- Part001.chooseQuote env (mkQuotesResult title []) ;;
               Part001.checkQuote chosen) st1)
         = Reject (Message "No quote found")).
Proof.
  split; [| split].
  - destruct (respond env (List.length (requests st))
                (ParseSection pageId sectionIndex)) as [[id | o | parse |] | r |] eqn:R;
      try exact I.
    split; [apply variant_getQuotesForSection_rendered; exact R |].
    destruct (getQuotesForSection_rendered env _ _ _ _ R) as (st' & E & _).
    rewrite E.
    destruct (filter (withinThresholdsb st)
                (map RandomWikiquote.plainQuote (querySelectorAll (text parse))));
      [reflexivity | exact I].
  - destruct (RandomWikiquote.getQuotesForSection env pageId sectionIndex st)
      as [[result | r | |] st'] eqn:E; try exact I.
    apply getQuotesForSection_Return in E.
    destruct E as (parse & _ & _ & _ & N & _). exact N.
  - intros title st1.
    unfold bind, Part001.chooseQuote, Part001.randomQuote, bind, randomNum, ret.
    cbn [quotes titles]. rewrite at_index_nil. reflexivity.
Qed.

(** ** One candidate for each attempt *)




(** * Further properties *)

(** ** The normal form of a quote *)

Lemma replaceSpaces_fixed s :
  forall p,
    adjacentSpaces s = false ->
    (p = true -> startsWithSpace s = false) ->
    replaceSpaces p s = s.
Proof.
  induction s as [| c t IH]; intros p A S; [reflexivity |].
  cbn [adjacentSpaces] in A. apply orb_false_iff in A. destruct A as [A1 A2].
  cbn [replaceSpaces]. destruct (isSpace c) eqn:C.
  - cbn [andb] in A1. destruct p.
    + specialize (S eq_refl). cbn in S. congruence.
    + rewrite A1. f_equal. apply IH; [exact A2 | intros _; exact A1].
  - f_equal. apply IH; [exact A2 | discriminate].
Qed.

Lemma trimStart_fixed s : startsWithSpace s = false -> trimStart s = s.
Proof. destruct s as [| c t]; cbn; [reflexivity | intros ->; reflexivity]. Qed.

Lemma trim_fixed s :
  startsWithSpace s = false -> endsWithSpace s = false -> trim s = s.
Proof.
  intros S E. unfold trim, trimEnd. rewrite (trimStart_fixed s S).
  unfold endsWithSpace in E. rewrite (trimStart_fixed (rev s) E).
  apply rev_involutive.
Qed.

(** X2. The text normalisation of [getQuotesForSection], replacing the runs
    of white space and trimming, is idempotent, and so is each of its two
    steps: a string that went through it is not changed by it again. *)
Theorem normalisation_idempotent (s : jsstring) :
  replaceSpaces false (replaceSpaces false s) = replaceSpaces false s
  /\ trim (trim s) = trim s
  /\ trim (replaceSpaces false (trim (replaceSpaces false s)))
     = trim (replaceSpaces false s).
Proof.
  split; [| split].
  - destruct (replaceSpaces_shape s false) as (A & _ & _).
    apply replaceSpaces_fixed; [exact A | discriminate].
  - destruct (trim_shape s) as (S & E & _). apply trim_fixed; assumption.
  - destruct (replaceSpaces_shape s false) as (A & _ & _).
    destruct (trim_shape (replaceSpaces false s)) as (S & E & A').
    rewrite replaceSpaces_fixed; [| apply A'; exact A | discriminate].
    apply trim_fixed; assumption.
Qed.

Lemma visible_replaceSpaces s : forall p, visible (replaceSpaces p s) = visible s.
Proof.
  unfold visible. induction s as [| c t IH]; intros p; [reflexivity |].
  cbn [replaceSpaces filter]. destruct (isSpace c) eqn:C; cbn [negb].
  - destruct p; [apply IH |].
    destruct (startsWithSpace t); cbn [filter].
    + change (isSpace SPACE) with true. cbn [negb]. apply IH.
    + rewrite C. cbn [negb]. apply IH.
  - cbn [filter]. rewrite C. cbn [negb]. f_equal. apply IH.
Qed.

Lemma visible_trimStart s : visible (trimStart s) = visible s.
Proof.
  unfold visible. induction s as [| c t IH]; [reflexivity |].
  cbn [trimStart filter]. destruct (isSpace c) eqn:C; cbn [negb].
  - exact IH.
  - cbn [filter]. rewrite C. reflexivity.
Qed.

Lemma visible_rev s : visible (rev s) = rev (visible s).
Proof.
  unfold visible. induction s as [| c t IH]; [reflexivity |].
  cbn [rev filter]. rewrite filter_app, IH. cbn [filter].
  destruct (negb (isSpace c)); cbn [rev]; [reflexivity | apply app_nil_r].
Qed.

Lemma visible_trim s : visible (trim s) = visible s.
Proof.
  unfold trim, trimEnd.
  rewrite visible_rev, visible_trimStart, visible_rev, rev_involutive.
  apply visible_trimStart.
Qed.

Lemma length_replaceSpaces s :
  forall p, (List.length (replaceSpaces p s) <= List.length s)%nat.
Proof.
  induction s as [| c t IH]; intros p; [cbn; lia |].
  cbn [replaceSpaces]. destruct (isSpace c).
  - destruct p; [specialize (IH true); cbn; lia |].
    destruct (startsWithSpace t); specialize (IH true); cbn; lia.
  - specialize (IH false). cbn. lia.
Qed.

Lemma length_trim s : (List.length (trim s) <= List.length s)%nat.
Proof.
  destruct (trimStart_suffix s) as [a Ea].
  destruct (trimEnd_prefix (trimStart s)) as [b Eb].
  unfold trim. rewrite Ea at 2. rewrite Eb at 2. rewrite !length_app. lia.
Qed.

Lemma isDigit_visible c : isDigit c = true -> isSpace c = false.
Proof.
  unfold isDigit, isSpace. intros H. apply andb_true_iff in H.
  destruct H as [L U]. apply N.leb_le in L, U.
  repeat match goal with
         | |- context [(?a <=? ?b)%N] =>
             destruct (N.leb_spec a b); try lia
         | |- context [(?a =? ?b)%N] =>
             destruct (N.eqb_spec a b); try lia
         end.
  all: try reflexivity.
Qed.

Lemma countDigits_visible s : countDigits (visible s) = countDigits s.
Proof.
  unfold countDigits, visible. f_equal.
  induction s as [| c t IH]; [reflexivity |].
  cbn [filter]. destruct (isDigit c) eqn:D.
  - rewrite (isDigit_visible c D). cbn [negb filter]. rewrite D. f_equal. exact IH.
  - destruct (negb (isSpace c)); cbn [filter]; [rewrite D |]; exact IH.
Qed.

(** X3. The string built from a list item has the same code units other
    than white space, in the same order, as the text of the item after the
    unwanted children were replaced; so it has the same number of digits, and
    it is not longer. *)
Theorem plainQuote_keeps_visible_text (quote : node) :
  visible (RandomWikiquote.plainQuote quote)
  = visible (innerText (replaceUnwanted RandomWikiquote.ELEMENTS_TO_KEEP quote))
  /\ countDigits (RandomWikiquote.plainQuote quote)
     = countDigits (innerText (replaceUnwanted RandomWikiquote.ELEMENTS_TO_KEEP quote))
  /\ (List.length (RandomWikiquote.plainQuote quote)
      <= List.length (innerText (replaceUnwanted RandomWikiquote.ELEMENTS_TO_KEEP
                                   quote)))%nat.
Proof.
  unfold RandomWikiquote.plainQuote.
  assert (V : forall s, visible (trim (replaceSpaces false s)) = visible s)
    by (intros s; rewrite visible_trim; apply visible_replaceSpaces).
  split; [apply V |]. split.
  - rewrite <- countDigits_visible, V. apply countDigits_visible.
  - eapply Nat.le_trans; [apply length_trim | apply length_replaceSpaces].
Qed.

(** ** The thresholds *)

Lemma countDigits_le_length s : (countDigits s <= List.length s)%nat.
Proof. unfold countDigits. apply filter_length_le. Qed.

(** The digit ratio of a string that is not empty is a number from 0 to 1. *)
Lemma digitRatio_unit c s :
  exists q, digitRatio (c :: s) = Fin q /\ (0 <= q)%Q /\ (q <= 1)%Q.
Proof.
  eexists. split; [apply digitRatio_nonempty |].
  pose proof (countDigits_le_length (c :: s)) as L.
  assert (P : Z.pos (Pos.of_nat (List.length (c :: s)))
              = Z.of_nat (List.length (c :: s))).
  { cbn [List.length]. rewrite <- Pos.of_nat_succ, Zpos_P_of_succ_nat. lia. }
  unfold Qle. cbn [Qnum Qden]. rewrite P. split; lia.
Qed.

Lemma isQuoteValid_true_iff v st :
  fst (RandomWikiquote.isQuoteValid v st) = Return true
  <-> exists s, v = JStr s /\ withinThresholds st s.
Proof.
  destruct (isQuoteValid_run v st) as (b & st' & E & _ & I).
  rewrite E. cbn [fst]. rewrite <- I. split.
  - intros H. injection H as ->. reflexivity.
  - intros ->. reflexivity.
Qed.

(** X4. The digit ratio lies between 0 and 1, so a [numericLimit] outside
    that range switches the numeric test off or the validator off: with a
    negative limit [isQuoteValid] accepts nothing, and with a limit of 1 or
    more it accepts exactly the strings, not empty, whose length is between
    [minLength] and [maxLength]. *)
Theorem numericLimit_outside_unit_interval (st : state) (s : jsstring) :
  ((numericLimit st < 0)%Q ->
   fst (RandomWikiquote.isQuoteValid (JStr s) st) = Return false)
  /\ ((1 <= numericLimit st)%Q ->
      (fst (RandomWikiquote.isQuoteValid (JStr s) st) = Return true
       <-> s <> [] /\ minLength st <= Z.of_nat (List.length s) <= maxLength st)).
Proof.
  split.
  - intros N.
    destruct (isQuoteValid_run (JStr s) st) as (b & st' & E & _ & I).
    rewrite E. cbn [fst]. destruct b; [| reflexivity].
    destruct I as [I _]. destruct (I eq_refl) as (s' & Es & _ & W).
    injection Es as <-. destruct s as [| c t]; [contradiction |].
    destruct (digitRatio_unit c t) as (q & Eq & Q0 & _).
    rewrite Eq in W. cbn in W.
    exfalso. apply (Qlt_irrefl 0).
    eapply Qle_lt_trans; [exact Q0 |]. eapply Qle_lt_trans; eassumption.
  - intros L. rewrite isQuoteValid_true_iff. split.
    + intros (s' & Es & W). injection Es as <-.
      split; [eapply withinThresholds_nonempty; exact W | apply W].
    + intros [N B]. exists s. split; [reflexivity |]. split; [exact B |].
      destruct s as [| c t]; [contradiction |].
      destruct (digitRatio_unit c t) as (q & Eq & _ & Q1).
      rewrite Eq. cbn. eapply Qle_trans; eassumption.
Qed.

Lemma numericLimit_outside_unit_interval_witness :
  (1 <= numericLimit (mkState 20 300 2 [] 0 [] []))%Q
  /\ (fst (RandomWikiquote.isQuoteValid
             (JStr (lit "31 12 1999 23 59 59")) (mkState 20 300 2 [] 0 [] []))
      = Return true
      <-> lit "31 12 1999 23 59 59" <> []
          /\ minLength (mkState 20 300 2 [] 0 [] [])
             <= Z.of_nat (List.length (lit "31 12 1999 23 59 59"))
             <= maxLength (mkState 20 300 2 [] 0 [] [])).
Proof.
  assert (H : (1 <= numericLimit (mkState 20 300 2 [] 0 [] []))%Q)
    by (cbn; discriminate).
  split; [exact H |].
  destruct (numericLimit_outside_unit_interval
              (mkState 20 300 2 [] 0 [] []) (lit "31 12 1999 23 59 59"))
    as (_ & K).
  exact (K H).
Defined.

(** X6. Loosening the thresholds never turns an accepted quote into a
    rejected one: what [isQuoteValid] accepts with some thresholds it accepts
    with a lower [minLength], a higher [maxLength] and a higher
    [numericLimit]. *)
Theorem isQuoteValid_monotone (st1 st2 : state) (v : jsval) :
  minLength st2 <= minLength st1 ->
  maxLength st1 <= maxLength st2 ->
  (numericLimit st1 <= numericLimit st2)%Q ->
  fst (RandomWikiquote.isQuoteValid v st1) = Return true ->
  fst (RandomWikiquote.isQuoteValid v st2) = Return true.
Proof.
  intros Hmin Hmax Hlim. rewrite !isQuoteValid_true_iff.
  intros (s & -> & (B1 & B2) & W). exists s. split; [reflexivity |].
  split; [lia |].
  destruct (digitRatio s) as [| | q]; cbn in *; try contradiction.
  eapply Qle_trans; eassumption.
Qed.

Lemma isQuoteValid_monotone_witness :
  minLength lenient <= minLength initial
  /\ maxLength initial <= maxLength lenient
  /\ (numericLimit initial <= numericLimit lenient)%Q
  /\ fst (RandomWikiquote.isQuoteValid
            (JStr (lit "To be or not to be, that is the question.")) initial)
     = Return true
  /\ fst (RandomWikiquote.isQuoteValid
            (JStr (lit "To be or not to be, that is the question.")) lenient)
     = Return true.
Proof.
  assert (H1 : minLength lenient <= minLength initial) by (cbn; lia).
  assert (H2 : maxLength initial <= maxLength lenient) by (cbn; lia).
  assert (H3 : (numericLimit initial <= numericLimit lenient)%Q)
    by (cbn; discriminate).
  assert (H4 : fst (RandomWikiquote.isQuoteValid
                      (JStr (lit "To be or not to be, that is the question."))
                      initial) = Return true) by (vm_compute; reflexivity).
  split; [exact H1 |]. split; [exact H2 |]. split; [exact H3 |].
  split; [exact H4 |].
  exact (isQuoteValid_monotone initial lenient _ H1 H2 H3 H4).
Defined.

Lemma unsatisfiable_rejects st s : unsatisfiable st -> ~ withinThresholds st s.
Proof.
  intros U W. pose proof (withinThresholds_nonempty st s W) as N.
  destruct W as [[B1 B2] W]. destruct s as [| c t]; [contradiction |].
  destruct U as [U | [U | U]].
  - lia.
  - cbn [List.length] in B2. lia.
  - destruct (digitRatio_unit c t) as (q & Eq & Q0 & _).
    rewrite Eq in W. cbn in W. apply (Qlt_irrefl 0).
    eapply Qle_lt_trans; [exact Q0 |]. eapply Qle_lt_trans; eassumption.
Qed.

Lemma unsatisfiable_sameConfig st st' :
  sameConfig st st' -> unsatisfiable st -> unsatisfiable st'.
Proof.
  unfold sameConfig, unsatisfiable. intros (a & b & c). rewrite a, b, c. tauto.
Qed.

(** What a pass of the primary chain that returns went through: an
    extraction that returned, in a state with the configuration of the start,
    and the draw from its result. *)
Lemma attempt_extraction env st r st' :
  RandomWikiquote.attempt env st = (Return r, st') ->
  exists pageId sectionIndex st3 result st4,
    sameConfig st st3
    /\ RandomWikiquote.getQuotesForSection env pageId sectionIndex st3
       = (Return result, st4)
    /\ RandomWikiquote.chooseQuote env result st4 = (Return r, st').
Proof.
  intros H. unfold RandomWikiquote.attempt in H.
  apply bind_Return in H. destruct H as (pageId & st1 & E1 & H).
  apply bind_Return in H. destruct H as (d & st2 & E2 & H).
  apply bind_Return in H. destruct H as (i & st3 & E3 & H).
  apply bind_Return in H. destruct H as (q & st4 & E4 & H).
  pose proof (effect_getRandomPage env st) as F1. rewrite E1 in F1.
  pose proof (effect_getSectionsForPage env pageId st1) as F2. rewrite E2 in F2.
  assert (F3 : frame 0 st2 st3).
  { assert (F : effect 0 (RandomWikiquote.randomSection env (sr_sections d)))
      by (unfold RandomWikiquote.randomSection; effects).
    specialize (F st2). rewrite E3 in F. exact F. }
  exists (sr_pageId d), i, st3, q, st4. split; [| split; assumption].
  destruct F1 as (C1 & _), F2 as (C2 & _), F3 as (C3 & _).
  eapply sameConfig_trans; [eapply sameConfig_trans |]; eassumption.
Qed.

(** X5. With thresholds that no string can meet ([maxLength] below
    [minLength] or below 1, or a negative [numericLimit]) [getRandomQuote]
    never resolves, whatever the site answers and whatever is drawn, in the
    primary implementation and in the variant: it is rejected with "Retry
    limit reached", after [RETRY_LIMIT] attempts, or it waits for ever for
    the answer to the last request it sent. *)
Theorem unsatisfiable_thresholds_exhaust_retries
  (env : environment) (st : state) :
  unsatisfiable st ->
  match RandomWikiquote.getRandomQuote env st with
  | (Return _, _) => False
  | (Reject r, st') =>
      r = Message "Retry limit reached"
      /\ attempts st' = (attempts st + RandomWikiquote.RETRY_LIMIT)%nat
  | (OutOfFuel, _) => False
  | (Hangs, st') => unanswered env st'
  end
  /\ match Part001.getRandomQuote env st with
     | (Return _, _) => False
     | (Reject r, st') =>
         r = Message "Retry limit reached"
         /\ attempts st' = (attempts st + Part001.RETRY_LIMIT)%nat
     | (OutOfFuel, _) => False
     | (Hangs, st') => unanswered env st'
     end.
Proof.
  intros U. split.
  - unfold RandomWikiquote.getRandomQuote. rewrite mainSequence_retrying.
    pose proof (retrying_run RandomWikiquote.RETRY_LIMIT
                  (RandomWikiquote.attempt env) (effect_attempt env)
                  RandomWikiquote.RETRY_LIMIT 0 st
                  ltac:(unfold RandomWikiquote.RETRY_LIMIT; lia) ltac:(lia)) as R.
    destruct (retrying _ _ _ _ st) as [[a | r | |] st']; [| | exact R |].
    + destruct R as (j & st0 & _ & _ & _ & C0 & E).
      destruct (attempt_extraction env st0 a st' E)
        as (pageId & i & st3 & q & st4 & C3 & E4 & _).
      apply getQuotesForSection_Return in E4.
      destruct E4 as (parse & _ & _ & Eq & Nq & _).
      destruct (quotes q) as [| s rest] eqn:Q; [contradiction |].
      assert (I : In s (filter (withinThresholdsb st3)
                          (map RandomWikiquote.plainQuote
                             (querySelectorAll (text parse)))))
        by (rewrite <- Eq; left; reflexivity).
      apply filter_In in I. destruct I as [_ W]. apply withinThresholdsb_iff in W.
      apply (unsatisfiable_rejects st3 s); [| exact W].
      eapply unsatisfiable_sameConfig; [| exact U].
      eapply sameConfig_trans; eassumption.
    + destruct R as (-> & Na & _). split; [reflexivity | lia].
    + destruct R as (j & st0 & _ & _ & _ & _ & E).
      exact (hangsOnly_attempt env st0 st' E).
  - unfold Part001.getRandomQuote. rewrite variant_mainSequence_retrying.
    pose proof (retrying_run Part001.RETRY_LIMIT
                  (Part001.attempt env) (effect_variant_attempt env)
                  Part001.RETRY_LIMIT 0 st
                  ltac:(unfold Part001.RETRY_LIMIT; lia) ltac:(lia)) as R.
    destruct (retrying _ _ _ _ st) as [[a | r | |] st']; [| | exact R |].
    + destruct R as (j & st0 & _ & _ & _ & C0 & E).
      destruct (variant_attempt_Return env st0 a st' E) as (s & _ & W).
      apply (unsatisfiable_rejects st0 s); [| exact W].
      eapply unsatisfiable_sameConfig; eassumption.
    + destruct R as (-> & Na & _). split; [reflexivity | lia].
    + destruct R as (j & st0 & _ & _ & _ & _ & E).
      exact (hangsOnly_variant_attempt env st0 st' E).
Qed.

Lemma unsatisfiable_thresholds_exhaust_retries_witness :
  unsatisfiable crossed
  /\ match RandomWikiquote.getRandomQuote hamlet crossed with
     | (Return _, _) => False
     | (Reject r, st') =>
         r = Message "Retry limit reached"
         /\ attempts st' = (attempts crossed + RandomWikiquote.RETRY_LIMIT)%nat
     | (OutOfFuel, _) => False
     | (Hangs, st') => unanswered hamlet st'
     end.
Proof.
  assert (H : unsatisfiable crossed) by (left; cbn; lia).
  split; [exact H |].
  destruct (unsatisfiable_thresholds_exhaust_retries hamlet crossed H) as (K & _).
  exact K.
Defined.

(** ** What a call costs *)

Lemma spends_refl st : spends 0 0 st st.
Proof.
  split; [apply sameConfig_refl |]. split; [| lia].
  exists []. rewrite app_nil_r. split; [reflexivity | cbn; lia].
Qed.

Lemma spends_trans a b c d st1 st2 st3 :
  spends a b st1 st2 -> spends c d st2 st3 -> spends (a + c) (b + d) st1 st3.
Proof.
  intros (C1 & (l1 & R1 & L1) & D1) (C2 & (l2 & R2 & L2) & D2).
  split; [eapply sameConfig_trans; eassumption |]. split; [| lia].
  exists (l1 ++ l2). rewrite R2, R1, <- app_assoc, length_app.
  split; [reflexivity | lia].
Qed.

Lemma spends_weaken a b a' b' st st' :
  (a <= a')%nat -> (b <= b')%nat -> spends a b st st' -> spends a' b' st st'.
Proof.
  intros Ha Hb (C & (l & R & L) & D).
  split; [exact C |]. split; [| lia]. exists l. split; [exact R | lia].
Qed.

Lemma within_ret {A} (a : A) : within 0 0 (ret a).
Proof. intros st. apply spends_refl. Qed.

Lemma within_reject {A} r : within 0 0 (@reject A r).
Proof. intros st. apply spends_refl. Qed.

Lemma within_bind {A B} a b c d (m : M A) (f : A -> M B) :
  within a b m -> (forall x, within c d (f x)) -> within (a + c) (b + d) (bind m f).
Proof.
  intros Hm Hf st. unfold bind. specialize (Hm st).
  destruct (m st) as [[x | r | |] st1]; [| | exact Hm |].
  - specialize (Hf x st1).
    destruct (f x st1) as [[y | r | |] st2]; [| | exact Hf |];
      eapply spends_trans; eassumption.
  - eapply spends_weaken; [| | exact Hm]; lia.
  - eapply spends_weaken; [| | exact Hm]; lia.
Qed.

Lemma within_sameEffects {A} (m : M A) :
  (forall st, match m st with
              | (OutOfFuel, _) => False
              | (_, st') => sameEffects st st'
              end) ->
  within 0 0 m.
Proof.
  intros H st. specialize (H st).
  destruct (m st) as [[x | r | |] st']; [| | exact H |];
    destruct H as (C & R & D & _);
    (split; [exact C |]; split; [| lia]; exists [];
     rewrite app_nil_r; split; [exact R | cbn; lia]).
Qed.

Lemma within_ajaxGet env url : within 1 0 (ajaxGet env url).
Proof.
  intros st. unfold ajaxGet.
  assert (S : spends 1 0 st
                (mkState (minLength st) (maxLength st) (numericLimit st)
                   (requests st ++ [url]) (draws st) (console st) (divisions st))).
  { split; [repeat split |]. split; [| cbn; lia].
    exists [url]. split; [reflexivity | cbn; lia]. }
  destruct (respond env (List.length (requests st)) url); exact S.
Qed.

Lemma within_randomNum env max : within 0 1 (randomNum env max).
Proof.
  intros st. split; [repeat split |]. split; [| cbn; lia].
  exists []. cbn. rewrite app_nil_r. split; [reflexivity | lia].
Qed.

Lemma within_console_log r : within 0 0 (console_log r).
Proof.
  intros st. split; [repeat split |]. split; [| cbn; lia].
  exists []. cbn. rewrite app_nil_r. split; [reflexivity | lia].
Qed.

Ltac costs :=
  repeat first
    [ apply within_ret | apply within_reject
    | match goal with
      | |- within _ _ (match ?x with _ => _ end) => destruct x
      end ].

(** The loop spends at most as many times what a pass of the chain spends as
    there are attempts left. *)
Lemma retrying_within {A} (limit a b : nat) (chain : M A) :
  within a b chain ->
  forall fuel numRetry st,
    (numRetry < limit)%nat -> (limit - numRetry <= fuel)%nat ->
    match retrying limit chain fuel numRetry st with
    | (OutOfFuel, _) => False
    | (_, st') => spends ((limit - numRetry) * a) ((limit - numRetry) * b) st st'
    end.
Proof.
  intros Hc. induction fuel as [| fuel IH]; intros n st Hn Hf; [lia |].
  cbn [retrying]. unfold catch. specialize (Hc st).
  destruct (chain st) as [[x | r | |] st1]; [| | exact Hc |].
  - eapply spends_weaken; [| | exact Hc]; nia.
  - unfold bind at 1.
    pose proof (within_console_log r st1) as Hl.
    destruct (console_log r st1) as [[[] | r' | |] st2] eqn:El;
      [| | exact Hl |].
    + destruct (Nat.leb_spec limit (S n)) as [Hlim | Hlim].
      * unfold reject.
        eapply spends_weaken; [| | eapply spends_trans; eassumption]; nia.
      * specialize (IH (S n) st2 Hlim ltac:(lia)).
        destruct (retrying limit chain fuel (S n) st2) as [[y | r' | |] st'];
          [| | exact IH |];
          (eapply spends_weaken;
           [| | eapply spends_trans; [eapply spends_trans; eassumption | exact IH]];
           nia).
    + discriminate El.
    + discriminate El.
  - eapply spends_weaken; [| | exact Hc]; nia.
Qed.

Section Costs.

Variable env : environment.

Lemma within_getRandomPage : within 1 0 (RandomWikiquote.getRandomPage env).
Proof.
  unfold RandomWikiquote.getRandomPage.
  apply (within_bind 1 0 0 0); [apply within_ajaxGet | intros d; costs].
Qed.

Lemma within_getSectionsForPage pageId :
  within 1 0 (RandomWikiquote.getSectionsForPage env pageId).
Proof.
  unfold RandomWikiquote.getSectionsForPage.
  apply (within_bind 1 0 0 0); [apply within_ajaxGet | intros d; costs].
Qed.

Lemma within_getQuotesForSection pageId sectionIndex :
  within 1 0 (RandomWikiquote.getQuotesForSection env pageId sectionIndex).
Proof.
  intros st.
  destruct (respond env (List.length (requests st))
              (ParseSection pageId sectionIndex)) as [[id | o | parse |] | r |] eqn:R.
  3: { destruct (getQuotesForSection_rendered env _ _ _ _ R) as (st' & E & F).
       rewrite E.
       assert (S : spends 1 0 st st').
       { destruct F as (C & Rq & D & _).
         split; [exact C |]. split; [| rewrite D; cbn; lia].
         exists [ParseSection pageId sectionIndex]. split; [exact Rq | cbn; lia]. }
       destruct (filter _ _); exact S. }
  all: pose proof (within_ajaxGet env (ParseSection pageId sectionIndex) st) as W;
    unfold RandomWikiquote.getQuotesForSection, bind;
    unfold ajaxGet in *; rewrite R in *; exact W.
Qed.

Lemma within_attempt : within 3 2 (RandomWikiquote.attempt env).
Proof.
  unfold RandomWikiquote.attempt.
  apply (within_bind 1 0 2 2); [apply within_getRandomPage | intros pageId].
  apply (within_bind 1 0 1 2); [apply within_getSectionsForPage | intros d].
  apply (within_bind 0 1 1 1).
  - unfold RandomWikiquote.randomSection.
    apply (within_bind 0 1 0 0); [apply within_randomNum | intros i; costs].
  - intros i.
    apply (within_bind 1 0 0 1); [apply within_getQuotesForSection | intros q].
    unfold RandomWikiquote.chooseQuote, RandomWikiquote.randomQuote.
    apply (within_bind 0 1 0 0); [| intros j; costs].
    apply (within_bind 0 1 0 0); [apply within_randomNum | intros j; costs].
Qed.

Lemma within_variant_checkQuote chosen : within 0 0 (Part001.checkQuote chosen).
Proof.
  apply within_sameEffects. intros st.
  pose proof (checkQuote_run chosen st) as H.
  destruct (Part001.checkQuote chosen st) as [[r | r | |] st'];
    [| | exact H | destruct H].
  - apply H.
  - apply H.
Qed.

Lemma within_variant_attempt : within 3 2 (Part001.attempt env).
Proof.
  unfold Part001.attempt.
  apply (within_bind 1 0 2 2).
  { unfold Part001.getRandomPage.
    apply (within_bind 1 0 0 0); [apply within_ajaxGet | intros d; costs]. }
  intros pageId. apply (within_bind 1 0 1 2).
  { unfold Part001.getSectionsForPage.
    apply (within_bind 1 0 0 0); [apply within_ajaxGet | intros d; costs]. }
  intros d. apply (within_bind 0 1 1 1).
  { unfold Part001.randomSection.
    apply (within_bind 0 1 0 0); [apply within_randomNum | intros i; costs]. }
  intros i. apply (within_bind 1 0 0 1).
  { unfold Part001.getQuotesForSection.
    apply (within_bind 1 0 0 0); [apply within_ajaxGet | intros x; costs]. }
  intros q. apply (within_bind 0 1 0 0); [| intros c; apply within_variant_checkQuote].
  unfold Part001.chooseQuote, Part001.randomQuote.
  apply (within_bind 0 1 0 0); [| intros j; costs].
  apply (within_bind 0 1 0 0); [apply within_randomNum | intros j; costs].
Qed.

End Costs.

(** X7. A call of [getRandomQuote] sends at most three requests for each
    attempt, 21 in all, after the requests sent before it, draws at most two
    random numbers for each attempt, 14 in all, and leaves [minLength],
    [maxLength] and [numericLimit] as they were; so does the variant. *)
Theorem getRandomQuote_cost (env : environment) (st : state) :
  match RandomWikiquote.getRandomQuote env st with
  | (OutOfFuel, _) => False
  | (_, st') =>
      sameConfig st st'
      /\ (exists sent, requests st' = requests st ++ sent
                       /\ (List.length sent <= 3 * RandomWikiquote.RETRY_LIMIT)%nat)
      /\ (draws st <= draws st' <= draws st + 2 * RandomWikiquote.RETRY_LIMIT)%nat
  end
  /\ match Part001.getRandomQuote env st with
     | (OutOfFuel, _) => False
     | (_, st') =>
         sameConfig st st'
         /\ (exists sent, requests st' = requests st ++ sent
                          /\ (List.length sent <= 3 * Part001.RETRY_LIMIT)%nat)
         /\ (draws st <= draws st' <= draws st + 2 * Part001.RETRY_LIMIT)%nat
     end.
Proof.
  split.
  - unfold RandomWikiquote.getRandomQuote. rewrite mainSequence_retrying.
    pose proof (retrying_within RandomWikiquote.RETRY_LIMIT 3 2
                  (RandomWikiquote.attempt env) (within_attempt env)
                  RandomWikiquote.RETRY_LIMIT 0 st
                  ltac:(unfold RandomWikiquote.RETRY_LIMIT; lia) ltac:(lia)) as R.
    destruct (retrying _ _ _ _ st) as [[a | r | |] st']; [| | exact R |];
      (eapply spends_weaken; [| | exact R]; lia).
  - unfold Part001.getRandomQuote. rewrite variant_mainSequence_retrying.
    pose proof (retrying_within Part001.RETRY_LIMIT 3 2
                  (Part001.attempt env) (within_variant_attempt env)
                  Part001.RETRY_LIMIT 0 st
                  ltac:(unfold Part001.RETRY_LIMIT; lia) ltac:(lia)) as R.
    destruct (retrying _ _ _ _ st) as [[a | r | |] st']; [| | exact R |];
      (eapply spends_weaken; [| | exact R]; lia).
Qed.

(** ** Where a result comes from *)

(** The selector matches list items only. *)
Lemma selectFrom_list_items :
  forall n grand parent x,
    In x (selectFrom grand parent n) -> exists cs, x = Elem "LI" cs.
Proof.
  fix IH 1. intros [s | t cs] grand parent x H; cbn [selectFrom] in H.
  - contradiction.
  - apply in_app_or in H. destruct H as [H | H].
    + destruct (String.eqb t "LI" && tag_is "UL" parent && tag_is "DIV" grand)
        eqn:E; [| contradiction].
      destruct H as [<- | []].
      apply andb_true_iff in E. destruct E as [E _].
      apply andb_true_iff in E. destruct E as [E _].
      apply String.eqb_eq in E. subst t. exists cs. reflexivity.
    + induction cs as [| c rest IHcs]; cbn [flat_map] in H; [contradiction |].
      apply in_app_or in H. destruct H as [H | H].
      * exact (IH c parent (Some t) x H).
      * exact (IHcs H).
Qed.

(** The string of a list item is in normal form. *)
Lemma plainQuote_normal quote :
  startsWithSpace (RandomWikiquote.plainQuote quote) = false
  /\ endsWithSpace (RandomWikiquote.plainQuote quote) = false
  /\ adjacentSpaces (RandomWikiquote.plainQuote quote) = false.
Proof.
  unfold RandomWikiquote.plainQuote.
  destruct (trim_shape (replaceSpaces false
                          (innerText (replaceUnwanted RandomWikiquote.ELEMENTS_TO_KEEP
                                        quote)))) as (S & E & A).
  split; [exact S |]. split; [exact E |]. apply A. apply replaceSpaces_shape.
Qed.

Section Provenance.

Variable env : environment.

Lemma getRandomPage_run st :
  RandomWikiquote.getRandomPage env st
  = (match respond env (List.length (requests st)) QueryRandom with
     | Responds (RandomList (Some id)) =>
         if id =? 0 then Reject (Message "Invalid random page id.") else Return id
     | Responds (RandomList None) => Reject (Message "Invalid random page id.")
     | Responds _ => Reject TypeError
     | Fails r => Reject r
     | Unanswered => Hangs
     end, requested QueryRandom st).
Proof.
  unfold RandomWikiquote.getRandomPage, bind, ajaxGet, requested.
  destruct (respond env (List.length (requests st)) QueryRandom)
    as [[[id |] | o | parse |] | r |]; try reflexivity.
  destruct (id =? 0); reflexivity.
Qed.

Lemma getSectionsForPage_run pageId st :
  RandomWikiquote.getSectionsForPage env pageId st
  = (match respond env (List.length (requests st)) (ParseSections pageId) with
     | Responds (Outline parse) =>
         Return (mkSectionsResult pageId (outline_title parse)
                   match map index (filter isSubsectionOfFirst (sections parse)) with
                   | [] => [lit "1"]
                   | found => found
                   end)
     | Responds (Rendering parse) =>
         Return (mkSectionsResult pageId (rendering_title parse) [lit "1"])
     | Responds _ => Reject TypeError
     | Fails r => Reject r
     | Unanswered => Hangs
     end, requested (ParseSections pageId) st).
Proof.
  unfold RandomWikiquote.getSectionsForPage, bind, ajaxGet, requested.
  destruct (respond env (List.length (requests st)) (ParseSections pageId))
    as [[id | o | parse |] | r |]; try reflexivity.
  rewrite collectSections_filter.
  destruct (map index (filter isSubsectionOfFirst (sections o))); reflexivity.
Qed.

Lemma getQuotesForSection_requests pageId sectionIndex st :
  requests (snd (RandomWikiquote.getQuotesForSection env pageId sectionIndex st))
  = requests st ++ [ParseSection pageId sectionIndex].
Proof.
  destruct (respond env (List.length (requests st))
              (ParseSection pageId sectionIndex)) as [[id | o | parse |] | r |] eqn:R.
  3: { destruct (getQuotesForSection_rendered env _ _ _ _ R)
         as (st' & E & (_ & Rq & _)).
       rewrite E. exact Rq. }
  all: unfold RandomWikiquote.getQuotesForSection, bind, ajaxGet; rewrite R;
    reflexivity.
Qed.

Hypothesis random_in_unit_interval : unitInterval env.

Lemma randomSection_run sections st :
  sections <> [] ->
  exists s,
    In s sections
    /\ RandomWikiquote.randomSection env sections st
       = (Return (JStr s),
          mkState (minLength st) (maxLength st) (numericLimit st) (requests st)
            (S (draws st)) (console st) (divisions st)).
Proof.
  intros N.
  destruct (random_in_unit_interval (draws st)) as [H0 H1].
  destruct (at_index_in_range sections
              (Qfloor (Math_random env (draws st)
                       * inject_Z (Z.of_nat (List.length sections)))))
    as (s & E & I).
  { apply randomNum_range; try assumption.
    destruct sections; [contradiction | cbn; lia]. }
  exists s. split; [exact I |].
  unfold RandomWikiquote.randomSection, bind, randomNum, ret. rewrite E.
  reflexivity.
Qed.

(** A result of [getRandomQuote] is the title and the string of a list item
    of the rendering that the site answered to the last request. *)
Lemma resolved_from_list_item st r st' :
  RandomWikiquote.getRandomQuote env st = (Return r, st') ->
  exists earlier pageId sectionIndex parse li,
    requests st' = earlier ++ [ParseSection pageId sectionIndex]
    /\ respond env (List.length earlier) (ParseSection pageId sectionIndex)
       = Responds (Rendering parse)
    /\ title r = rendering_title parse
    /\ In li (querySelectorAll (text parse))
    /\ quote r = JStr (RandomWikiquote.plainQuote li).
Proof.
  intros H. unfold RandomWikiquote.getRandomQuote in H.
  rewrite mainSequence_retrying in H.
  pose proof (retrying_run RandomWikiquote.RETRY_LIMIT
                (RandomWikiquote.attempt env) (effect_attempt env)
                RandomWikiquote.RETRY_LIMIT 0 st
                ltac:(unfold RandomWikiquote.RETRY_LIMIT; lia) ltac:(lia)) as R.
  rewrite H in R. destruct R as (j & st0 & _ & _ & _ & _ & E).
  destruct (attempt_extraction env st0 r st' E)
    as (pageId & i & st3 & q & st4 & _ & E4 & E5).
  pose proof (getQuotesForSection_requests pageId i st3) as Rq.
  rewrite E4 in Rq. cbn [snd] in Rq.
  apply getQuotesForSection_Return in E4.
  destruct E4 as (parse & Rp & Et & Eq & Nq & _).
  destruct (chooseQuote_run env random_in_unit_interval q st4 Nq) as (s & I & _ & K).
  rewrite K in E5. injection E5 as <- <-.
  rewrite Eq in I. apply filter_In in I. destruct I as [I _].
  apply in_map_iff in I. destruct I as (li & <- & Ili).
  exists (requests st3), pageId, i, parse, li.
  split; [exact Rq |]. split; [exact Rp |]. split; [exact Et |].
  split; [exact Ili | reflexivity].
Qed.

End Provenance.

(** X9. When [getRandomQuote] resolves, the last request it sent is the
    request for a section, the site answered it with a rendering, the title
    of the result is the title of that rendering (the one the site reports,
    after a redirect), and the quote is the string of a list item ([li]) that
    the selector matched in that rendering. *)
Theorem resolved_quote_provenance
  (env : environment) (st : state) (r : QuoteResult) (st' : state) :
  unitInterval env ->
  RandomWikiquote.getRandomQuote env st = (Return r, st') ->
  exists earlier pageId sectionIndex parse children,
    requests st' = earlier ++ [ParseSection pageId sectionIndex]
    /\ respond env (List.length earlier) (ParseSection pageId sectionIndex)
       = Responds (Rendering parse)
    /\ title r = rendering_title parse
    /\ In (Elem "LI" children) (querySelectorAll (text parse))
    /\ quote r = JStr (RandomWikiquote.plainQuote (Elem "LI" children)).
Proof.
  intros Hr H.
  destruct (resolved_from_list_item env Hr st r st' H)
    as (earlier & pageId & i & parse & li & Rq & Rp & Et & Ili & Eq).
  destruct (selectFrom_list_items _ _ _ _ Ili) as (cs & ->).
  exists earlier, pageId, i, parse, cs. repeat split; assumption.
Qed.

Lemma resolved_quote_provenance_witness :
  unitInterval hamlet
  /\ RandomWikiquote.getRandomQuote hamlet initial
     = (Return (mkQuoteResult (lit "Hamlet")
                  (JStr (lit "To be or not to be, that is the question."))),
        snd (RandomWikiquote.getRandomQuote hamlet initial))
  /\ exists earlier pageId sectionIndex parse children,
       requests (snd (RandomWikiquote.getRandomQuote hamlet initial))
       = earlier ++ [ParseSection pageId sectionIndex]
       /\ respond hamlet (List.length earlier) (ParseSection pageId sectionIndex)
          = Responds (Rendering parse)
       /\ lit "Hamlet" = rendering_title parse
       /\ In (Elem "LI" children) (querySelectorAll (text parse))
       /\ JStr (lit "To be or not to be, that is the question.")
          = JStr (RandomWikiquote.plainQuote (Elem "LI" children)).
Proof.
  assert (H : RandomWikiquote.getRandomQuote hamlet initial
              = (Return (mkQuoteResult (lit "Hamlet")
                           (JStr (lit "To be or not to be, that is the question."))),
                 snd (RandomWikiquote.getRandomQuote hamlet initial)))
    by (vm_compute; reflexivity).
  split; [exact hamlet_unitInterval |]. split; [exact H |].
  exact (resolved_quote_provenance hamlet initial _ _ hamlet_unitInterval H).
Defined.

(** X10. The quote [getRandomQuote] resolves with is in normal form: it has
    no white space at its start or at its end and no two white space
    characters in a row, and the normalisation leaves it as it is. *)
Theorem resolved_quote_normal_form
  (env : environment) (st : state) (r : QuoteResult) (st' : state) :
  unitInterval env ->
  RandomWikiquote.getRandomQuote env st = (Return r, st') ->
  exists s,
    quote r = JStr s
    /\ startsWithSpace s = false
    /\ endsWithSpace s = false
    /\ adjacentSpaces s = false
    /\ trim (replaceSpaces false s) = s.
Proof.
  intros Hr H.
  destruct (resolved_from_list_item env Hr st r st' H)
    as (earlier & pageId & i & parse & li & _ & _ & _ & _ & Eq).
  destruct (plainQuote_normal li) as (S & E & A).
  exists (RandomWikiquote.plainQuote li).
  split; [exact Eq |]. split; [exact S |]. split; [exact E |]. split; [exact A |].
  rewrite replaceSpaces_fixed; [| exact A | discriminate].
  apply trim_fixed; assumption.
Qed.

Lemma resolved_quote_normal_form_witness :
  unitInterval hamlet
  /\ RandomWikiquote.getRandomQuote hamlet initial
     = (Return (mkQuoteResult (lit "Hamlet")
                  (JStr (lit "To be or not to be, that is the question."))),
        snd (RandomWikiquote.getRandomQuote hamlet initial))
  /\ exists s,
       JStr (lit "To be or not to be, that is the question.") = JStr s
       /\ startsWithSpace s = false
       /\ endsWithSpace s = false
       /\ adjacentSpaces s = false
       /\ trim (replaceSpaces false s) = s.
Proof.
  assert (H : RandomWikiquote.getRandomQuote hamlet initial
              = (Return (mkQuoteResult (lit "Hamlet")
                           (JStr (lit "To be or not to be, that is the question."))),
                 snd (RandomWikiquote.getRandomQuote hamlet initial)))
    by (vm_compute; reflexivity).
  split; [exact hamlet_unitInterval |]. split; [exact H |].
  exact (resolved_quote_normal_form hamlet initial _ _ hamlet_unitInterval H).
Defined.

(** X8. The requests of one attempt.  A pass of the chain sends the request
    for a random page.  When the answer carries a page id other than 0, it
    goes on and sends the request for the outline of that page, and stops
    after the first request otherwise.  When the outline request is answered
    with a body that has a [parse], it goes on and sends one request for a
    section of that same page, and stops after the second request
    otherwise.  The section is always a string: one of the collected
    indexes, or "1" when none was collected. *)
Theorem attempt_request_protocol (env : environment) (st : state) :
  unitInterval env ->
  match respond env (List.length (requests st)) QueryRandom with
  | Responds (RandomList (Some id)) =>
      if id =? 0
      then requests (snd (RandomWikiquote.attempt env st))
           = requests st ++ [QueryRandom]
      else
        match respond env (S (List.length (requests st))) (ParseSections id) with
        | Responds (Outline parse) =>
            exists s,
              In s match collectSections (sections parse) with
                   | [] => [lit "1"]
                   | found => found
                   end
              /\ requests (snd (RandomWikiquote.attempt env st))
                 = requests st ++ [QueryRandom; ParseSections id;
                                   ParseSection id (JStr s)]
        | Responds (Rendering _) =>
            requests (snd (RandomWikiquote.attempt env st))
            = requests st ++ [QueryRandom; ParseSections id;
                              ParseSection id (JStr (lit "1"))]
        | _ =>
            requests (snd (RandomWikiquote.attempt env st))
            = requests st ++ [QueryRandom; ParseSections id]
        end
  | _ =>
      requests (snd (RandomWikiquote.attempt env st)) = requests st ++ [QueryRandom]
  end.
Proof.
  intros Hr.
  remember (requests (snd (RandomWikiquote.attempt env st))) as sent eqn:Es.
  unfold RandomWikiquote.attempt in Es. unfold bind at 1 in Es.
  rewrite getRandomPage_run in Es.
  destruct (respond env (List.length (requests st)) QueryRandom)
    as [[[id |] | o | parse |] | r |] eqn:R1;
    try exact Es.
  destruct (id =? 0) eqn:Z; [exact Es |].
  cbv beta iota in Es. unfold bind at 1 in Es.
  rewrite getSectionsForPage_run in Es.
  assert (L : List.length (requests (requested QueryRandom st))
              = S (List.length (requests st)))
    by (cbn; rewrite length_app; cbn; lia).
  rewrite L in Es.
  assert (K : forall d,
             sr_pageId d = id ->
             sr_sections d <> [] ->
             exists s,
               In s (sr_sections d)
               /\ requests
                    (snd ((sectionIndex <- RandomWikiquote.randomSection env
                                              (sr_sections d) ;;
                           quotes <- RandomWikiquote.getQuotesForSection env
                                       (sr_pageId d) sectionIndex ;;
                           RandomWikiquote.chooseQuote env quotes)
                            (requested (ParseSections id)
                               (requested QueryRandom st))))
                  = requests st ++ [QueryRandom; ParseSections id;
                                    ParseSection id (JStr s)]).
  { intros d Ed N. rewrite Ed.
    destruct (randomSection_run env Hr (sr_sections d)
                (requested (ParseSections id) (requested QueryRandom st)) N)
      as (s & I & E).
    exists s. split; [exact I |].
    unfold bind at 1. rewrite E. unfold bind at 1.
    match goal with
    | |- context [RandomWikiquote.getQuotesForSection env id (JStr s) ?st3] =>
        pose proof (getQuotesForSection_requests env id (JStr s) st3) as Rq;
        destruct (RandomWikiquote.getQuotesForSection env id (JStr s) st3)
          as [[q | r | |] st4]
    end; cbn [snd] in Rq |- *.
    - unfold RandomWikiquote.chooseQuote, RandomWikiquote.randomQuote, bind,
        randomNum, ret. cbn [snd requests].
      rewrite Rq. cbn [requests requested]. rewrite <- !app_assoc. reflexivity.
    - rewrite Rq. cbn [requests requested]. rewrite <- !app_assoc. reflexivity.
    - rewrite Rq. cbn [requests requested]. rewrite <- !app_assoc. reflexivity.
    - rewrite Rq. cbn [requests requested]. rewrite <- !app_assoc. reflexivity. }
  destruct (respond env (S (List.length (requests st))) (ParseSections id))
    as [[id' | o | parse |] | r |] eqn:R2; cbv beta iota in Es.
  - rewrite Es. cbn. rewrite <- app_assoc. reflexivity.
  - rewrite collectSections_filter.
    destruct (K (mkSectionsResult id (outline_title o)
                   match map index (filter isSubsectionOfFirst (sections o)) with
                   | [] => [lit "1"]
                   | found => found
                   end) eq_refl) as (s & I & E).
    { cbn. destruct (map index (filter isSubsectionOfFirst (sections o)));
        discriminate. }
    exists s. split; [exact I | rewrite Es; exact E].
  - destruct (K (mkSectionsResult id (rendering_title parse) [lit "1"]) eq_refl)
      as (s & I & E); [discriminate |].
    destruct I as [<- | []]. rewrite Es. exact E.
  - rewrite Es. cbn. rewrite <- app_assoc. reflexivity.
  - rewrite Es. cbn. rewrite <- app_assoc. reflexivity.
  - rewrite Es. cbn. rewrite <- app_assoc. reflexivity.
Qed.

Lemma attempt_request_protocol_witness :
  unitInterval hamlet
  /\ exists s,
       In s match collectSections
                    [mkSection (lit "1") (lit "1"); mkSection (lit "2") (lit "1.1")] with
            | [] => [lit "1"]
            | found => found
            end
       /\ requests (snd (RandomWikiquote.attempt hamlet initial))
          = requests initial ++ [QueryRandom; ParseSections 42;
                                 ParseSection 42 (JStr s)].
Proof.
  split; [exact hamlet_unitInterval |].
  exact (attempt_request_protocol hamlet initial hamlet_unitInterval).
Defined.

(** ** The promise of [ajaxGet] *)

Lemma settled_stays JSON_parse changes p :
  p <> Pending ->
  fold_left (fun p x => onreadystatechange JSON_parse x p) changes p = p.
Proof.
  revert p. induction changes as [| x rest IH]; intros p N; [reflexivity |].
  cbn [fold_left].
  assert (E : onreadystatechange JSON_parse x p = p).
  { unfold onreadystatechange.
    destruct (negb (readyState x =? 4) || (status x =? 0))%N; [reflexivity |].
    destruct (negb (status x =? 200)%N);
      [| destruct (JSON_parse (responseText x))];
      destruct p; try reflexivity; contradiction. }
  rewrite E. apply IH. exact N.
Qed.

Lemma promise_from changes JSON_parse p :
  fold_left (fun p x => onreadystatechange JSON_parse x p) changes p
  = settle p (ajaxGetPromise JSON_parse changes).
Proof.
  destruct p; [reflexivity | |]; cbn [settle]; apply settled_stays; discriminate.
Qed.

(** X11. The promise of [ajaxGet] is settled by the first change at which the
    request is done (ready state 4) with a status other than 0, and by
    nothing else: it is rejected with "Invalid Response: " and the status
    when that status is not 200, and otherwise fulfilled with the parsed body
    or rejected with the SyntaxError of [JSON.parse]; the changes before it
    and after it have no effect.  So the promise stays pending exactly when
    there is no such change: a request that ends with status 0 never settles
    it. *)
Theorem ajaxGet_promise_settled_once
  (JSON_parse : jsstring -> option data) (changes more : list xhr) :
  ajaxGetPromise JSON_parse changes
  = match find decisive changes with
    | None => Pending
    | Some x =>
        if (status x =? 200)%N
        then match JSON_parse (responseText x) with
             | Some body => Fulfilled body
             | None => Rejected SyntaxError
             end
        else Rejected (Message ("Invalid Response: "
                                ++ NilZero.string_of_uint (N.to_uint (status x))))
    end
  /\ (ajaxGetPromise JSON_parse changes = Pending
      <-> Forall (fun x => readyState x <> 4%N \/ status x = 0%N) changes)
  /\ ajaxGetPromise JSON_parse (changes ++ more)
     = settle (ajaxGetPromise JSON_parse changes) (ajaxGetPromise JSON_parse more).
Proof.
  assert (F : ajaxGetPromise JSON_parse changes
              = match find decisive changes with
                | None => Pending
                | Some x =>
                    if (status x =? 200)%N
                    then match JSON_parse (responseText x) with
                         | Some body => Fulfilled body
                         | None => Rejected SyntaxError
                         end
                    else Rejected
                           (Message ("Invalid Response: "
                                     ++ NilZero.string_of_uint
                                          (N.to_uint (status x))))
                end).
  { unfold ajaxGetPromise. induction changes as [| x rest IH]; [reflexivity |].
    cbn [fold_left find]. unfold onreadystatechange at 2, decisive at 1.
    destruct (readyState x =? 4)%N, (status x =? 0)%N; cbn [negb orb andb];
      try exact IH.
    destruct (status x =? 200)%N; cbn [negb];
      [destruct (JSON_parse (responseText x)) |];
      cbn [settle]; apply settled_stays; discriminate. }
  split; [exact F |]. split.
  - rewrite F. split.
    + intros H. apply Forall_forall. intros x I.
      destruct (find decisive changes) as [y |] eqn:E.
      * destruct (status y =? 200)%N; [destruct (JSON_parse (responseText y)) |];
          discriminate.
      * pose proof (find_none _ _ E x I) as D. unfold decisive in D.
        destruct (N.eqb_spec (readyState x) 4); [| left; assumption].
        destruct (N.eqb_spec (status x) 0); [right; assumption | discriminate].
    + intros H. destruct (find decisive changes) as [y |] eqn:E; [| reflexivity].
      apply find_some in E. destruct E as [I D].
      rewrite Forall_forall in H. specialize (H y I). unfold decisive in D.
      apply andb_true_iff in D. destruct D as [D1 D2].
      apply N.eqb_eq in D1. apply negb_true_iff, N.eqb_neq in D2.
      destruct H; contradiction.
  - unfold ajaxGetPromise at 1. rewrite fold_left_app.
    fold (ajaxGetPromise JSON_parse changes). apply promise_from.
Qed.

(** ** The orchestrator of [part_000] and [part_002] *)

Lemma effect_catch {A} k (m : M A) (h : reason -> M A) :
  effect k m -> (forall r, effect 0 (h r)) -> effect k (catch m h).
Proof.
  intros Hm Hh st. unfold catch. specialize (Hm st).
  destruct (m st) as [[a | r | |] st1]; try assumption.
  specialize (Hh r st1).
  destruct (h r st1) as [[b | r' | |] st2]; try assumption;
    replace k with (k + 0)%nat by lia; eapply frame_trans; eassumption.
Qed.

(** The loop returns only what a pass of the chain returned. *)
Lemma retrying_Return {A} (limit : nat) (chain : M A) :
  forall fuel numRetry st a st',
    retrying limit chain fuel numRetry st = (Return a, st') ->
    exists st0, chain st0 = (Return a, st').
Proof.
  induction fuel as [| fuel IH]; intros n st a st' H; [discriminate |].
  cbn [retrying] in H. unfold catch in H.
  destruct (chain st) as [[x | r | |] st1] eqn:E.
  - exists st. rewrite E. exact H.
  - unfold bind at 1, console_log at 1 in H.
    destruct (limit <=? S n)%nat; [discriminate |].
    eapply IH. exact H.
  - discriminate.
  - discriminate.
Qed.

Lemma wqa_checkQuote_eq : WikiquoteApi.checkQuote = Part001.checkQuote.
Proof. reflexivity. Qed.

Section Wqa.

Variable env : environment.
Variable newError : reason -> reason.
Variable getQuotesForSection : Z -> jsval -> M QuotesResult.

Lemma wqa_mainSequence_retrying fuel numRetry :
  WikiquoteApi.mainSequence env newError getQuotesForSection fuel numRetry
  = retrying WikiquoteApi.retryLimit
      (WikiquoteApi.attempt env newError getQuotesForSection) fuel numRetry.
Proof.
  revert numRetry. induction fuel as [| fuel IH]; intros numRetry; cbn.
  - reflexivity.
  - rewrite IH. reflexivity.
Qed.

Lemma effect_wqa_attempt :
  (forall pageId sectionIndex, effect 0 (getQuotesForSection pageId sectionIndex)) ->
  effect 1 (WikiquoteApi.attempt env newError getQuotesForSection).
Proof.
  intros He. unfold WikiquoteApi.attempt. apply effect_bind.
  - unfold WikiquoteApi.getRandomPage. apply effect_catch; [| intros r; effects].
    apply effect_bind; [exact (effect_ajaxGet env QueryRandom) | intros d; effects].
  - intros pageId. apply effect_bind.
    + unfold WikiquoteApi.getSectionsForPage.
      apply effect_catch; [| intros r; effects].
      apply effect_bind; [exact (effect_ajaxGet env (ParseSections pageId)) |].
      intros d; effects.
    + intros d. apply effect_bind.
      * unfold WikiquoteApi.randomSection. effects.
      * intros i. apply effect_bind; [apply He |].
        intros q. apply effect_bind.
        -- unfold WikiquoteApi.chooseQuote, WikiquoteApi.randomQuote. effects.
        -- intros c. rewrite wqa_checkQuote_eq. apply effect_checkQuote.
Qed.

End Wqa.

Lemma hangsOnly_weaken {A} (P Q : state -> Prop) (m : M A) :
  (forall st, P st -> Q st) -> hangsOnly P m -> hangsOnly Q m.
Proof. intros I H st st' E. apply I. exact (H st st' E). Qed.

Lemma hangsOnly_wqa_attempt env newError getQuotesForSection :
  (forall pageId sectionIndex,
      hangsOnly (fun _ => False) (getQuotesForSection pageId sectionIndex)) ->
  hangsOnly (unanswered env)
    (WikiquoteApi.attempt env newError getQuotesForSection).
Proof.
  intros He.
  unfold WikiquoteApi.attempt, WikiquoteApi.getRandomPage,
    WikiquoteApi.getSectionsForPage, WikiquoteApi.randomSection,
    WikiquoteApi.chooseQuote, WikiquoteApi.randomQuote.
  apply hangsOnly_bind.
  { apply hangsOnly_catch; [| intros r; hangs]. hangs. }
  intros pageId. apply hangsOnly_bind.
  { apply hangsOnly_catch; [| intros r; hangs]. hangs. }
  intros d. apply hangsOnly_bind; [hangs |].
  intros i. apply hangsOnly_bind.
  { eapply hangsOnly_weaken; [| apply He]. intros st0 []. }
  intros q. apply hangsOnly_bind; [hangs |].
  intros c. rewrite wqa_checkQuote_eq. apply hangsOnly_checkQuote.
Qed.

(** X12. In [part_000] and [part_002] the limit is 10.  Whatever the
    extraction does, as long as it leaves the thresholds and the console
    alone and asks for no random page, [getRandomQuote] starts at most 10
    attempts, logs every attempt that was rejected, and is rejected only with
    "Retry limit reached", after exactly 10 rejected attempts: the errors of
    the stages, wrapped in [Error] or not, are never what it is rejected
    with.  It settles whenever every request is answered and the extraction
    settles; a request left without an answer leaves it waiting. *)
Theorem wqa_rejected_only_after_ten_attempts
  (env : environment) (newError : reason -> reason)
  (getQuotesForSection : Z -> jsval -> M QuotesResult) (st : state) :
  (forall pageId sectionIndex, effect 0 (getQuotesForSection pageId sectionIndex)) ->
  match WikiquoteApi.getRandomQuote env newError getQuotesForSection st with
  | (Return _, st') =>
      exists j, (1 <= j <= 10)%nat
                /\ attempts st' = (attempts st + j)%nat
                /\ List.length (console st')
                   = (List.length (console st) + (j - 1))%nat
  | (Reject r, st') =>
      r = Message "Retry limit reached"
      /\ attempts st' = (attempts st + 10)%nat
      /\ List.length (console st') = (List.length (console st) + 10)%nat
  | (OutOfFuel, _) => False
  | (Hangs, st') =>
      exists j, (1 <= j <= 10)%nat
                /\ attempts st' = (attempts st + j)%nat
                /\ List.length (console st')
                   = (List.length (console st) + (j - 1))%nat
  end
  /\ (answered env ->
      (forall pageId sectionIndex,
          hangsOnly (fun _ => False) (getQuotesForSection pageId sectionIndex)) ->
      fst (WikiquoteApi.getRandomQuote env newError getQuotesForSection st)
      <> Hangs).
Proof.
  intros He. unfold WikiquoteApi.getRandomQuote. rewrite wqa_mainSequence_retrying.
  pose proof (retrying_run WikiquoteApi.retryLimit
                (WikiquoteApi.attempt env newError getQuotesForSection)
                (effect_wqa_attempt env newError getQuotesForSection He)
                WikiquoteApi.retryLimit 0 st
                ltac:(unfold WikiquoteApi.retryLimit; lia) ltac:(lia)) as R.
  destruct (retrying _ _ _ _ st) as [[a | r | |] st']; [| | destruct R |].
  - split; [| discriminate].
    destruct R as (j & st0 & Hj & Na & La & _).
    exists j. unfold WikiquoteApi.retryLimit in Hj. repeat split; lia.
  - split; [| discriminate].
    destruct R as (-> & Na & La & _).
    unfold WikiquoteApi.retryLimit in Na, La. repeat split; lia.
  - destruct R as (j & st0 & Hj & Na & La & _ & E). split.
    + exists j. unfold WikiquoteApi.retryLimit in Hj. repeat split; lia.
    + intros Ha Hs _.
      exact (answered_not_unanswered env st' Ha
               (hangsOnly_wqa_attempt env newError getQuotesForSection Hs
                  st0 st' E)).
Qed.

Lemma wqa_rejected_only_after_ten_attempts_witness :
  (forall pageId sectionIndex,
      effect 0 (Part001.getQuotesForSection hamlet pageId sectionIndex))
  /\ match WikiquoteApi.getRandomQuote hamlet (fun r => r)
             (Part001.getQuotesForSection hamlet) initial with
     | (Return _, st') =>
         exists j, (1 <= j <= 10)%nat
                   /\ attempts st' = (attempts initial + j)%nat
                   /\ List.length (console st')
                      = (List.length (console initial) + (j - 1))%nat
     | (Reject r, st') =>
         r = Message "Retry limit reached"
         /\ attempts st' = (attempts initial + 10)%nat
         /\ List.length (console st') = (List.length (console initial) + 10)%nat
     | (OutOfFuel, _) => False
     | (Hangs, st') =>
         exists j, (1 <= j <= 10)%nat
                   /\ attempts st' = (attempts initial + j)%nat
                   /\ List.length (console st')
                      = (List.length (console initial) + (j - 1))%nat
     end.
Proof.
  split; [exact (effect_variant_getQuotesForSection hamlet) |].
  destruct (wqa_rejected_only_after_ten_attempts hamlet (fun r => r)
              (Part001.getQuotesForSection hamlet) initial
              (effect_variant_getQuotesForSection hamlet)) as (K & _).
  exact K.
Defined.

(** X13. In [part_000] and [part_002], whatever the extraction is, a quote
    that [getRandomQuote] resolves with went through [checkQuote] last: it is
    a string whose length and digit ratio are within the thresholds of the
    moment it is returned. *)
Theorem wqa_resolved_quote_within_thresholds
  (env : environment) (newError : reason -> reason)
  (getQuotesForSection : Z -> jsval -> M QuotesResult)
  (st : state) (r : QuoteResult) (st' : state) :
  WikiquoteApi.getRandomQuote env newError getQuotesForSection st = (Return r, st') ->
  exists s, quote r = JStr s /\ withinThresholds st' s.
Proof.
  intros H. unfold WikiquoteApi.getRandomQuote in H.
  rewrite wqa_mainSequence_retrying in H.
  apply retrying_Return in H. destruct H as (st0 & H).
  unfold WikiquoteApi.attempt in H.
  apply bind_Return in H. destruct H as (pageId & st1 & _ & H).
  apply bind_Return in H. destruct H as (d & st2 & _ & H).
  apply bind_Return in H. destruct H as (i & st3 & _ & H).
  apply bind_Return in H. destruct H as (q & st4 & _ & H).
  apply bind_Return in H. destruct H as (c & st5 & _ & H).
  rewrite wqa_checkQuote_eq in H.
  pose proof (checkQuote_run c st5) as K. rewrite H in K.
  destruct K as (-> & (s & Es & W) & (C & _)).
  exists s. split; [exact Es |].
  eapply withinThresholds_sameConfig; eassumption.
Qed.

Lemma wqa_resolved_quote_within_thresholds_witness :
  WikiquoteApi.getRandomQuote hamletFirst (fun r => r)
    (Part001.getQuotesForSection hamletFirst) initial
  = (Return (mkQuoteResult (lit "Hamlet")
               (JStr (lit "To be or not to be, that is the question."))),
     snd (WikiquoteApi.getRandomQuote hamletFirst (fun r => r)
            (Part001.getQuotesForSection hamletFirst) initial))
  /\ exists s,
       JStr (lit "To be or not to be, that is the question.") = JStr s
       /\ withinThresholds
            (snd (WikiquoteApi.getRandomQuote hamletFirst (fun r => r)
                    (Part001.getQuotesForSection hamletFirst) initial)) s.
Proof.
  assert (H : WikiquoteApi.getRandomQuote hamletFirst (fun r => r)
                (Part001.getQuotesForSection hamletFirst) initial
              = (Return (mkQuoteResult (lit "Hamlet")
                           (JStr (lit "To be or not to be, that is the question."))),
                 snd (WikiquoteApi.getRandomQuote hamletFirst (fun r => r)
                        (Part001.getQuotesForSection hamletFirst) initial)))
    by (vm_compute; reflexivity).
  split; [exact H |].
  exact (wqa_resolved_quote_within_thresholds hamletFirst (fun r => r)
           (Part001.getQuotesForSection hamletFirst) initial _ _ H).
Defined.

(** ** Sections and variants *)

(** X1. The sections that [getSectionsForPage] collects from an outline are
    those whose number starts with "1.": the subsections of the first
    section at any depth, and no section of the tenth or a later section.
    The list holds their indexes. *)
Theorem collected_sections_by_prefix (secs : list section) (s : jsstring) :
  In s (collectSections secs)
  <-> exists sec,
        In sec secs
        /\ (exists tail, number sec = lit "1." ++ tail)
        /\ index sec = s.
Proof.
  rewrite collectSections_filter, in_map_iff. split.
  - intros (sec & E & I). apply filter_In in I. destruct I as [I P].
    exists sec. split; [exact I |]. split; [| exact E].
    apply isSubsectionOfFirst_prefix. exact P.
  - intros (sec & I & P & E). exists sec. split; [exact E |].
    apply filter_In. split; [exact I |].
    apply isSubsectionOfFirst_prefix. exact P.
Qed.

(** X14. On the same answer of the site, the primary [getQuotesForSection]
    resolves with what the one of [part_001] resolves with, normalised (runs
    of white space replaced, trimmed) and then filtered by the thresholds, in
    the same order; it is rejected when nothing is left.  When the answer is
    not a rendering, both are rejected; when there is no answer, both
    wait. *)
Theorem primary_extraction_refines_variant
  (env : environment) (pageId : Z) (sectionIndex : jsval) (st : state) :
  match respond env (List.length (requests st)) (ParseSection pageId sectionIndex) with
  | Responds (Rendering parse) =>
      exists raw,
        fst (Part001.getQuotesForSection env pageId sectionIndex st)
        = Return (mkQuotesResult (rendering_title parse) raw)
        /\ fst (RandomWikiquote.getQuotesForSection env pageId sectionIndex st)
           = match filter (withinThresholdsb st)
                     (map (fun t => trim (replaceSpaces false t)) raw) with
             | [] => Reject (Message "Section has no valid quote.")
             | kept => Return (mkQuotesResult (rendering_title parse) kept)
             end
  | Unanswered =>
      fst (Part001.getQuotesForSection env pageId sectionIndex st) = Hangs
      /\ fst (RandomWikiquote.getQuotesForSection env pageId sectionIndex st)
         = Hangs
  | _ =>
      exists r1 r2,
        fst (Part001.getQuotesForSection env pageId sectionIndex st) = Reject r1
        /\ fst (RandomWikiquote.getQuotesForSection env pageId sectionIndex st)
           = Reject r2
  end.
Proof.
  destruct (respond env (List.length (requests st))
              (ParseSection pageId sectionIndex)) as [[id | o | parse |] | r |] eqn:R.
  3: { eexists. split.
       - rewrite (variant_getQuotesForSection_rendered env _ _ _ _ R). reflexivity.
       - destruct (getQuotesForSection_rendered env _ _ _ _ R) as (st' & E & _).
         rewrite E. cbn [fst]. rewrite map_map.
         change (fun x => trim (replaceSpaces false
                                  (outerText (replaceUnwanted Part001.childrenToKeep x))))
           with RandomWikiquote.plainQuote.
         destruct (filter (withinThresholdsb st)
                     (map RandomWikiquote.plainQuote (querySelectorAll (text parse))));
           reflexivity. }
  5: { unfold Part001.getQuotesForSection, RandomWikiquote.getQuotesForSection,
         bind, ajaxGet; rewrite R; split; reflexivity. }
  all: eexists; eexists;
    unfold Part001.getQuotesForSection, RandomWikiquote.getQuotesForSection,
      bind, ajaxGet; rewrite R; split; reflexivity.
Qed.

(** ** The allow-list of [part_000] *)

Lemma part000_replaceChild child :
  ~ hasTag "EM," child ->
  replaceChild Part000.childrenToKeep child
  = replaceChild Part001.childrenToKeep (dropEmphasis child).
Proof.
  destruct child as [s | t cs]; [reflexivity |]. cbn [hasTag]. intros N.
  unfold replaceChild, dropEmphasis, Part000.childrenToKeep,
    Part001.childrenToKeep.
  cbn [existsb].
  repeat match goal with
         | |- context [String.eqb t ?l] =>
             destruct (String.eqb_spec t l);
             [subst t; try reflexivity; try contradiction |]
         end.
  cbn [orb].
  repeat match goal with
         | |- context [String.eqb t ?l] =>
             destruct (String.eqb_spec t l); [contradiction |]
         end.
  reflexivity.
Qed.

(** X15. In [part_000] the allow-list holds "EM," where "EM" is meant, and
    no ABBR, PRE, CODE, DFN or SAMP.  So, for a list item with no child
    tagged "EM,", the text [part_000] extracts is the text [part_001]
    extracts from the same item with every child tagged EM, ABBR, PRE, CODE,
    DFN or SAMP replaced by a space: an emphasised word of a quote is lost. *)
Theorem part000_drops_emphasis (tag : string) (children : list node) :
  Forall (fun child => ~ hasTag "EM," child) children ->
  Part000.quoteText (Elem tag children)
  = outerText (replaceUnwanted Part001.childrenToKeep
                 (Elem tag (map dropEmphasis children))).
Proof.
  intros H. unfold Part000.quoteText. cbn [replaceUnwanted]. do 2 f_equal.
  rewrite map_map. apply map_ext_in. intros child I.
  apply part000_replaceChild. rewrite Forall_forall in H. apply H. exact I.
Qed.

Lemma part000_drops_emphasis_witness :
  Forall (fun child => ~ hasTag "EM," child)
    [Text (lit "To "); Elem "EM" [Text (lit "be")]; Text (lit " or not")]
  /\ Part000.quoteText
       (Elem "LI" [Text (lit "To "); Elem "EM" [Text (lit "be")];
                   Text (lit " or not")])
     = outerText (replaceUnwanted Part001.childrenToKeep
                    (Elem "LI" (map dropEmphasis
                                  [Text (lit "To "); Elem "EM" [Text (lit "be")];
                                   Text (lit " or not")]))).
Proof.
  assert (H : Forall (fun child => ~ hasTag "EM," child)
                [Text (lit "To "); Elem "EM" [Text (lit "be")];
                 Text (lit " or not")]).
  { repeat constructor; cbn; try tauto. discriminate. }
  split; [exact H |].
  exact (part000_drops_emphasis "LI" _ H).
Defined.
